(** * BotKube: chat command executor and image-tag filter

    A shallow embedding of [pkg/execute/executor.go] (the command gateway:
    [Execute], [runKubectlCommand], [runNotifierCommand], [runFilterCommand],
    [makeFiltersList], [runVersionCommand], [showControllerConfig]) and of
    the [ImageTagChecker] filter, with the properties the specification
    states about them.

    Go strings are byte sequences and are modelled by [string]; slices by
    [list]; a function that can panic returns a [result]; the package-level
    variables the handlers touch ([config.Notify], the filter registry) and
    the process runner's call log live in an explicit [World]. *)

From Stdlib Require Import String Ascii List Bool Arith Lia ZArith Permutation.
From Stdlib Require Decimal DecimalFacts DecimalPos DecimalString.
Import ListNotations.
Open Scope string_scope.
Open Scope list_scope.

(** String concatenation, Go's [+] on strings. *)
Infix "+++" := String.append (right associativity, at level 60).

(** The line feed and the horizontal tab, Go's ["\n"] and ["\t"]. *)
Definition LF : string := String (ascii_of_nat 10) EmptyString.
Definition TAB : string := String (ascii_of_nat 9) EmptyString.



(** ** Go's [strings], [unicode] and [fmt] functions used by the source *)

Module GoStrings.

Definition byte_is (n : nat) (c : ascii) : bool := Nat.eqb (nat_of_ascii c) n.

(** [strings.HasPrefix(s, prefix)]. *)
Definition HasPrefix (s p : string) : bool := String.prefix p s.

(** Number of bytes of the white-space rune encoded at the head of [s]
    ([unicode.IsSpace] on the UTF-8 decoding), 0 when the head is not white
    space.  The ASCII ones are tab, line feed, vertical tab, form feed,
    carriage return and space; the others are U+0085, U+00A0, U+1680,
    U+2000..U+200A, U+2028, U+2029, U+202F, U+205F and U+3000.  A lead byte
    is never a continuation byte, so looking for these encodings byte by
    byte agrees with decoding rune by rune. *)
Definition space_width (s : string) : nat :=
  match s with
  | EmptyString => 0
  | String c0 s1 =>
    let b0 := nat_of_ascii c0 in
    if (Nat.leb 9 b0 && Nat.leb b0 13) || Nat.eqb b0 32 then 1
    else match s1 with
    | EmptyString => 0
    | String c1 s2 =>
      let b1 := nat_of_ascii c1 in
      if Nat.eqb b0 194 then
        (if Nat.eqb b1 133 || Nat.eqb b1 160 then 2 else 0)
      else match s2 with
      | EmptyString => 0
      | String c2 _ =>
        let b2 := nat_of_ascii c2 in
        if Nat.eqb b0 225 then
          (if Nat.eqb b1 154 && Nat.eqb b2 128 then 3 else 0)
        else if Nat.eqb b0 226 then
          (if Nat.eqb b1 128
           then (if (Nat.leb 128 b2 && Nat.leb b2 138)
                    || Nat.eqb b2 168 || Nat.eqb b2 169 || Nat.eqb b2 175
                 then 3 else 0)
           else if Nat.eqb b1 129 && Nat.eqb b2 159 then 3 else 0)
        else if Nat.eqb b0 227 then
          (if Nat.eqb b1 128 && Nat.eqb b2 128 then 3 else 0)
        else 0
      end
    end
  end.

(** A finished token is emitted only when it is not empty. *)
Definition flush (tok : string) : list string :=
  match tok with EmptyString => [] | _ => [tok] end.

(** The scan of [strings.Fields]: [skip] counts the bytes still to drop of
    the white-space rune being crossed, [tok] is the token read so far. *)
Fixpoint Fields_scan (skip : nat) (tok : string) (s : string) : list string :=
  match s with
  | EmptyString => flush tok
  | String c s' =>
    match skip with
    | S k => Fields_scan k tok s'
    | O =>
      match space_width s with
      | O => Fields_scan 0 (tok +++ String c EmptyString) s'
      | S k => flush tok ++ Fields_scan k EmptyString s'
      end
    end
  end.

(** [strings.Fields(s)]: the maximal runs of non-white-space bytes. *)
Definition Fields (s : string) : list string := Fields_scan 0 EmptyString s.

(** The loop of Go's [genSplit] for a non-empty separator: [budget] is the
    number of cuts still allowed, [skip] the bytes of the separator still to
    cross, [cur] the piece read so far. *)
Fixpoint genSplit_scan (sep : string) (sepSave : bool) (budget skip : nat)
                       (cur : string) (s : string) : list string :=
  match s with
  | EmptyString => [cur]
  | String c s' =>
    match skip with
    | S k => genSplit_scan sep sepSave budget k cur s'
    | O =>
      match budget with
      | O => [cur +++ s]
      | S b =>
        if String.prefix sep s
        then (cur +++ (if sepSave then sep else EmptyString))
               :: genSplit_scan sep sepSave b (String.length sep - 1) EmptyString s'
        else genSplit_scan sep sepSave budget 0 (cur +++ String c EmptyString) s'
      end
    end
  end.

(** [genSplit(s, sep, sepSave, n)] for a non-empty [sep] (every call in the
    source passes a literal separator): no piece for [n = 0], every piece
    for [n < 0], at most [n] pieces otherwise, the last one unsplit. *)
Definition genSplit (s sep : string) (sepSave : bool) (n : Z) : list string :=
  if Z.eqb n 0 then []
  else if Z.ltb n 0 then genSplit_scan sep sepSave (String.length s) 0 EmptyString s
  else genSplit_scan sep sepSave (Z.to_nat n - 1) 0 EmptyString s.

(** [strings.Split(s, sep)]. *)
Definition Split (s sep : string) : list string := genSplit s sep false (-1).

(** [strings.SplitAfterN(s, sep, n)]. *)
Definition SplitAfterN (s sep : string) (n : Z) : list string := genSplit s sep true n.

Fixpoint rev_string (s : string) : string :=
  match s with
  | EmptyString => EmptyString
  | String c s' => rev_string s' +++ String c EmptyString
  end.

(** [strings.TrimLeftFunc] for a predicate on ASCII bytes. *)
Fixpoint TrimLeftFunc (s : string) (f : ascii -> bool) : string :=
  match s with
  | EmptyString => EmptyString
  | String c s' => if f c then TrimLeftFunc s' f else s
  end.

Definition TrimRightFunc (s : string) (f : ascii -> bool) : string :=
  rev_string (TrimLeftFunc (rev_string s) f).

(** [strings.TrimFunc(s, f)]: every leading and every trailing code point
    satisfying [f] is removed.  The predicate used by the source accepts two
    ASCII code points only, so it is given on bytes. *)
Definition TrimFunc (s : string) (f : ascii -> bool) : string :=
  TrimRightFunc (TrimLeftFunc s f) f.

(** [strings.Contains(s, substr)]. *)
Fixpoint Contains (s sub : string) : bool :=
  String.prefix sub s ||
  match s with
  | EmptyString => false
  | String _ s' => Contains s' sub
  end.

(** [fmt.Sprintf] for formats whose only verbs are [%s] and [%v], the
    operands already converted to text. *)
Fixpoint Sprintf (fmt : string) (args : list string) : string :=
  match fmt with
  | EmptyString => EmptyString
  | String c fmt1 =>
    match fmt1 with
    | EmptyString => String c EmptyString
    | String v fmt2 =>
      if byte_is 37 c && (byte_is 115 v || byte_is 118 v)
      then match args with
           | a :: args' => a +++ Sprintf fmt2 args'
           | [] => "%!" +++ String v "(MISSING)" +++ Sprintf fmt2 []
           end
      else String c (Sprintf fmt1 args)
    end
  end.

(** [%v] of a boolean. *)
Definition FormatBool (b : bool) : string := if b then "true" else "false".

End GoStrings.
Import GoStrings.


(** ** Go's [text/tabwriter], as [makeFiltersList] uses it

    The writer is created with [NewWriter(buf, 5, 0, 1, ' ', 0)]: cells are
    left-aligned and padded with blanks.  A horizontal tab ends a cell, a line
    feed ends a line; the last cell of a line belongs to no column.  The
    vertical tab, the form feed and the escape byte 0xff also steer the real
    writer: the properties below are stated for texts free of them. *)

Module TabWriter.

(** Cut [s] at every byte equal to [sep]; [cur] is the piece read so far. *)
Fixpoint cut_at (sep : ascii) (cur : string) (s : string) : list string :=
  match s with
  | EmptyString => [cur]
  | String a s' =>
    if Ascii.eqb a sep then cur :: cut_at sep EmptyString s'
    else cut_at sep (cur +++ String a EmptyString) s'
  end.

(** The pending text of the last line becomes a cell at [Flush] only when it
    is not empty. *)
Definition close_last_line (cells : list string) : list string :=
  match rev cells with
  | EmptyString :: r => rev r
  | _ => cells
  end.

Fixpoint close_last (lines : list (list string)) : list (list string) :=
  match lines with
  | [] => []
  | [l] => [close_last_line l]
  | l :: ls => l :: close_last ls
  end.

(** The buffered lines of cells after writing [text] and flushing. *)
Definition buffered (text : string) : list (list string) :=
  close_last (map (cut_at (ascii_of_nat 9) EmptyString)
                  (cut_at (ascii_of_nat 10) EmptyString text)).

(** [utf8.RuneCount] on valid UTF-8: the bytes that are not continuation
    bytes. *)
Fixpoint RuneCount (s : string) : nat :=
  match s with
  | EmptyString => 0
  | String c s' =>
    let b := nat_of_ascii c in
    (if Nat.leb 128 b && Nat.ltb b 192 then 0 else 1) + RuneCount s'
  end.

Fixpoint blanks (n : nat) : string :=
  match n with
  | O => EmptyString
  | S k => String " " (blanks k)
  end.

(** A left-aligned cell and its padding ([writePadding]). *)
Definition pad (c : string) (cellw : nat) : string := c +++ blanks (cellw - RuneCount c).

(** One line of [writeLines]: the cells of the columns whose widths are
    known are padded, the others are written as they are. *)
Fixpoint write_cells (widths : list nat) (cells : list string) : string :=
  match cells with
  | [] => EmptyString
  | c :: cs =>
    match widths with
    | w :: ws => pad c w +++ write_cells ws cs
    | [] => c +++ write_cells [] cs
    end
  end.

(** Width of a column block: the widest cell plus the padding, at least
    [minwidth]. *)
Definition block_width (minwidth padding column : nat) (block : list (list string)) : nat :=
  fold_left (fun width line => Nat.max width (RuneCount (nth column line EmptyString) + padding))
            block minwidth.

(** The loop of [format] over the lines: consecutive lines with a cell in the
    current column form a block, handed to [inner] (the recursive call with
    the block's width pushed); the lines between blocks are written with the
    widths known so far. *)
Fixpoint scan_blocks (inner : list (list string) -> list string)
                     (write : list string -> string)
                     (has_cell : list string -> bool)
                     (lines block : list (list string)) : list string :=
  match lines with
  | [] => inner block
  | l :: ls =>
    if has_cell l then scan_blocks inner write has_cell ls (block ++ [l])
    else inner block ++ write l :: scan_blocks inner write has_cell ls []
  end.

(** [format]: [fuel] bounds the number of nested columns. *)
Fixpoint format (fuel minwidth padding : nat) (widths : list nat)
                (lines : list (list string)) : list string :=
  match fuel with
  | O => map (write_cells widths) lines
  | S f =>
    let column := length widths in
    scan_blocks
      (fun block =>
         match block with
         | [] => []
         | _ => format f minwidth padding
                       (widths ++ [block_width minwidth padding column block]) block
         end)
      (write_cells widths)
      (fun line => Nat.ltb column (length line - 1))
      lines []
  end.

(** What the buffer holds after [text] was written and the writer flushed:
    every line but the last buffered one is followed by a line feed. *)
Definition Flush (minwidth padding : nat) (text : string) : string :=
  let lines := buffered text in
  String.concat LF (format (S (fold_right Nat.max 0 (map (@length string) lines)))
                           minwidth padding [] lines).

End TabWriter.

(** ** Events, resource objects and filters *)

(** [events.Level]. *)
Inductive Level : Type := Info | Warn | Debug | Error | Critical.

(** [events.Event], with the fields the notifier and the filters read.
    [Type] is a [config.EventType], a string type. *)
Record Event : Type := mkEvent {
  Title : string;
  Kind : string;
  Name : string;
  Namespace : string;
  Reason : string;
  Action : string;
  Cluster : string;
  Channel : string;
  Type_ : string;
  Messages : list string;
  Recommendations : list string;
  Warnings : list string;
  TimeStamp : Z;
  Level_ : Level
}.

(** Modelled from the spec: [config.CreateEvent] is not under src/; the
    specification lists the event types as create, update, delete, error,
    warning, info and normal, and the notifier appends ["d"] to the type to
    print "created". *)
Definition CreateEvent : string := "create".

Definition set_Recommendations (recs : list string) (event : Event) : Event :=
  mkEvent (Title event) (Kind event) (Name event) (Namespace event) (Reason event)
          (Action event) (Cluster event) (Channel event) (Type_ event)
          (Messages event) recs (Warnings event) (TimeStamp event) (Level_ event).

(** [apiV1.Container], [apiV1.PodSpec] and [apiV1.Pod], with the fields the
    filter reads. *)
Record Container : Type := mkContainer {
  Container_Name : string;
  Image : string
}.

Record PodSpec : Type := mkPodSpec {
  InitContainers : list Container;
  Containers : list Container
}.

Record Pod : Type := mkPod { Spec : PodSpec }.

(** The [object interface{}] handed to a filter: a pod, or a resource of
    another type. *)
Inductive Object : Type :=
| PodObject (pod : Pod)
| OtherObject (kind : string).

(** [filterengine.Filter]: what the executor reads of a registered filter is
    the name of its type ([reflect.TypeOf(k).Name()]) and [Describe()]. *)
Record Filter : Type := mkFilter {
  TypeName : string;
  Describe : string;
  Run : Object -> Event -> Event
}.

(** *** [ImageTagChecker] *)

(** The body of both loops of [ImageTagChecker.Run] for one container;
    [role] is ["initContainer"] or ["Container"].  [images[1]] is in range
    when it is read: [strings.Split] returns at least one piece, so a length
    other than 1 is at least 2. *)
Definition check_image (role : string) (recs : list string) (c : Container) : list string :=
  let images := Split (Image c) ":" in
  if Nat.eqb (length images) 1 || String.eqb (nth 1 images EmptyString) "latest"
  then recs ++ [":latest tag used in image '" +++ Image c +++ "' of " +++ role +++ " '"
                +++ Container_Name c +++ "' should be avoided." +++ LF]
  else recs.

(** [func (f ImageTagChecker) Run(object interface{}, event *events.Event)]:
    the event after the call. *)
Definition ImageTagChecker_Run (object : Object) (event : Event) : Event :=
  if negb (String.eqb (Kind event) "Pod") || negb (String.eqb (Type_ event) CreateEvent)
  then event
  else match object with
  | OtherObject _ => event
  | PodObject podObj =>
    let recs := fold_left (check_image "initContainer")
                          (InitContainers (Spec podObj)) (Recommendations event) in
    let recs := fold_left (check_image "Container") (Containers (Spec podObj)) recs in
    set_Recommendations recs event
  end.

Definition ImageTagChecker (Description : string) : Filter :=
  mkFilter "ImageTagChecker" Description ImageTagChecker_Run.

(** ** Configuration *)

(** [config.Config], with the fields the source names:
    [Communications.Slack.{Token, Channel, NotifType}] and
    [Communications.ElasticSearch.Password]. *)
Record config_Slack : Type := mkSlack {
  Token : string;
  Slack_Channel : string;
  NotifType : string
}.

Record config_ElasticSearch : Type := mkElasticSearch { Password : string }.

Record config_Communications : Type := mkCommunications {
  Slack : config_Slack;
  ElasticSearch : config_ElasticSearch
}.

Record config_Config : Type := mkConfig { Communications : config_Communications }.

(** [&config.Config{}]: every field at its zero value. *)
Definition zero_Config : config_Config :=
  mkConfig (mkCommunications (mkSlack "" "" "") (mkElasticSearch "")).

(** [c.Communications.Slack.Token = v]. *)
Definition set_Token (v : string) (c : config_Config) : config_Config :=
  let cm := Communications c in
  mkConfig (mkCommunications (mkSlack v (Slack_Channel (Slack cm)) (NotifType (Slack cm)))
                             (ElasticSearch cm)).

(** [c.Communications.ElasticSearch.Password = v]. *)
Definition set_Password (v : string) (c : config_Config) : config_Config :=
  let cm := Communications c in
  mkConfig (mkCommunications (Slack cm) (mkElasticSearch v)).

(** ** The world the handlers run in *)

(** The package-level state and the operating system, as the executor sees
    them.  [Invocations] is a ghost log of the commands handed to the
    process runner, oldest first. *)
Record World : Type := mkWorld {
  Notify : bool;
  FiltersMap : list (Filter * bool);
  Getenv : string -> string;
  ReadFile : string -> string + string;
  Invocations : list (string * list string)
}.

Definition set_Notify (b : bool) (w : World) : World :=
  mkWorld b (FiltersMap w) (Getenv w) (ReadFile w) (Invocations w).

Definition set_FiltersMap (m : list (Filter * bool)) (w : World) : World :=
  mkWorld (Notify w) m (Getenv w) (ReadFile w) (Invocations w).

Definition log_Invocation (binary : string) (args : list string) (w : World) : World :=
  mkWorld (Notify w) (FiltersMap w) (Getenv w) (ReadFile w)
          (Invocations w ++ [(binary, args)]).

(** Code outside the executor that it calls: the process runner
    ([NewCommandRunner(binary, args).Run()], output and optional error
    text), the order in which a [range] over the filter map yields its
    entries, the text of the error [SetFilter] returns for an unknown name,
    [config.ConfigFileName], [filepath.Join] and the YAML codec. *)
Record Platform : Type := mkPlatform {
  runner_Run : string -> list string -> string * option string;
  range_order : list (Filter * bool) -> list (Filter * bool);
  NotFoundError : string -> string;
  ConfigFileName : string;
  filepath_Join : string -> string -> string;
  yaml_Unmarshal : string -> config_Config -> config_Config + string;
  yaml_Marshal : config_Config -> string + string
}.

(** The outcome of a call: a value or a run-time panic. *)
Inductive result (A : Type) : Type :=
| Ok (a : A)
| Panic (msg : string).
Arguments Ok {A} a.
Arguments Panic {A} msg.

(** Handlers read and write the world and can panic. *)
Definition M (A : Type) : Type := World -> result A * World.

Definition ret {A : Type} (a : A) : M A := fun w => (Ok a, w).

Definition bind {A B : Type} (m : M A) (k : A -> M B) : M B :=
  fun w => match m w with
           | (Ok a, w') => k a w'
           | (Panic msg, w') => (Panic msg, w')
           end.

Definition panic {A : Type} (msg : string) : M A := fun w => (Panic msg, w).

Definition lift {A : Type} (r : result A) : M A := fun w => (r, w).

Notation "x <- m ;; k" := (bind m (fun x => k))
  (at level 61, m at next level, right associativity).

(** [l[i]]: an index out of range panics. *)
Definition index_result (l : list string) (i : nat) : result string :=
  match nth_error l i with
  | Some x => Ok x
  | None => Panic "index out of range"
  end.

Definition index (l : list string) (i : nat) : M string := lift (index_result l i).

(** ** The executor *)

Definition validKubectlCommands (cmd : string) : bool :=
  existsb (String.eqb cmd)
    ["api-resources"; "api-versions"; "cluster-info"; "describe"; "diff";
     "explain"; "get"; "logs"; "top"; "auth"].

Definition validNotifierCommand (cmd : string) : bool := existsb (String.eqb cmd) ["notifier"].
Definition validPingCommand (cmd : string) : bool := existsb (String.eqb cmd) ["ping"].
Definition validVersionCommand (cmd : string) : bool := existsb (String.eqb cmd) ["version"].
Definition validFilterCommand (cmd : string) : bool := existsb (String.eqb cmd) ["filters"].

Definition kubectlBinary : string := "/usr/local/bin/kubectl".

Definition notifierStartMsg : string :=
  "Brace yourselves, notifications are coming from cluster '%s'.".
Definition notifierStopMsg : string :=
  "Sure! I won't send you notifications from cluster '%s' anymore.".
Definition unsupportedCmdMsg : string :=
  "Command not supported. Please run /botkubehelp to see supported commands.".
Definition incompleteCmdMsg : string :=
  "You missed to pass options for the command. Please run /botkubehelp to see command options.".
Definition kubectlDisabledMsg : string :=
  "Sorry, the admin hasn't given me the permission to execute kubectl command on cluster '%s'.".
Definition filterNameMissing : string :=
  "You forgot to pass filter name. Please pass one of the following valid filters:"
  +++ LF +++ LF +++ "%s".
Definition filterEnabled : string := "I have enabled '%s' filter on '%s' cluster.".
Definition filterDisabled : string := "Done. I won't run '%s' filter on '%s' cluster.".

(** [DefaultExecutor]. *)
Record DefaultExecutor : Type := mkDefaultExecutor {
  Message : string;
  AllowKubectl : bool;
  ClusterName : string;
  ChannelName : string;
  IsAuthChannel : bool
}.

Definition NewDefaultExecutor (msg : string) (allowkubectl : bool)
    (clusterName channelName : string) (isAuthChannel : bool) : DefaultExecutor :=
  mkDefaultExecutor msg allowkubectl clusterName channelName isAuthChannel.

(** [NotifierAction], [CommandFlags] and [FiltersAction]. *)
Definition Start : string := "start".
Definition Stop : string := "stop".
Definition Status : string := "status".
Definition ShowConfig : string := "showconfig".

Definition ClusterFlag : string := "--cluster-name".
Definition FollowFlag : string := "--follow".
Definition AbbrFollowFlag : string := "-f".
Definition WatchFlag : string := "--watch".
Definition AbbrWatchFlag : string := "-w".

Definition FilterList : string := "list".
Definition FilterEnable : string := "enable".
Definition FilterDisable : string := "disable".

Definition printDefaultMsg : string := unsupportedCmdMsg.

(** [unicode.SimpleFold] maps the apostrophe and the quotation mark to
    themselves, so the predicate of [trimQuotes] accepts exactly these two. *)
Definition isQuote (r : ascii) : bool := byte_is 39 r || byte_is 34 r.

(** Trim single and double quotes from ends of string. *)
Definition trimQuotes (clusterValue : string) : string := TrimFunc clusterValue isQuote.

(** Modelled from the spec: [utils.DeleteDoubleWhiteSpace] is not under src/;
    the specification has it "collapse redundant whitespace-derived empty
    tokens", so it keeps the tokens that are not empty. *)
Definition DeleteDoubleWhiteSpace (slice : list string) : list string :=
  filter (fun s => negb (String.eqb s EmptyString)) slice.

(** Modelled from the spec: [filterengine.SetFilter] is not under src/;
    "setEnabled(identity, bool) fails with NotFoundError if identity is
    absent", and otherwise sets the enabled flag of that identity. *)
Definition SetFilter (name : string) (flag : bool) (m : list (Filter * bool))
  : option (list (Filter * bool)) :=
  if existsb (fun kv => String.eqb (TypeName (fst kv)) name) m
  then Some (map (fun kv => if String.eqb (TypeName (fst kv)) name
                            then (fst kv, flag) else kv) m)
  else None.

(** The text [makeFiltersList] writes into the tab writer, [visit] being the
    entries of the filter map in the order the [range] yields them. *)
Definition filters_table (visit : list (Filter * bool)) : string :=
  ("FILTER" +++ TAB +++ "ENABLED" +++ TAB +++ "DESCRIPTION" +++ LF)
  +++ String.concat EmptyString
        (map (fun kv => Sprintf ("%s" +++ TAB +++ "%v" +++ TAB +++ "%s" +++ LF)
                                [TypeName (fst kv); FormatBool (snd kv); Describe (fst kv)])
             visit).

(** [makeFiltersList], given the order of the [range]. *)
Definition makeFiltersList (visit : list (Filter * bool)) : string :=
  TabWriter.Flush 5 1 (filters_table visit).

(** What leaves the loop of [runKubectlCommand]: an early [return] of a
    text, or the end of the loop with [finalArgs] and [isAuthChannel]. *)
Inductive loop_exit : Type :=
| Returned (text : string)
| Finished (finalArgs : list string) (isAuthChannel : bool).

(** The [for index, arg := range args] of [runKubectlCommand]; [args] is the
    part of the slice from [index] on, so [args[index+1]] is the head of the
    rest and [index == len(args)-1] holds when the rest is empty. *)
Fixpoint runKubectlCommand_loop (clusterName : string) (args : list string)
    (isClusterNameArg isAuthChannel : bool) (finalArgs : list string)
  : result loop_exit :=
  match args with
  | [] => Ok (Finished finalArgs isAuthChannel)
  | arg :: rest =>
    if isClusterNameArg
    then runKubectlCommand_loop clusterName rest false isAuthChannel finalArgs
    else if String.eqb arg AbbrFollowFlag || HasPrefix arg FollowFlag
    then runKubectlCommand_loop clusterName rest false isAuthChannel finalArgs
    else if String.eqb arg AbbrWatchFlag || HasPrefix arg WatchFlag
    then runKubectlCommand_loop clusterName rest false isAuthChannel finalArgs
    else if HasPrefix arg ClusterFlag
    then
      if String.eqb arg ClusterFlag
      then match rest with
           | [] => Ok (Returned "")
           | next :: _ =>
             if negb (String.eqb (trimQuotes next) clusterName)
             then Ok (Returned "")
             else runKubectlCommand_loop clusterName rest true true finalArgs
           end
      else match index_result (SplitAfterN arg (ClusterFlag +++ "=") 2) 1 with
           | Panic msg => Panic msg
           | Ok value =>
             if negb (String.eqb (trimQuotes value) clusterName)
             then Ok (Returned "")
             else runKubectlCommand_loop clusterName rest false true finalArgs
           end
    else runKubectlCommand_loop clusterName rest false isAuthChannel (finalArgs ++ [arg])
  end.

(** The loop of [runVersionCommand]: [Some text] is an early [return]. *)
Fixpoint runVersionCommand_loop (clusterName : string) (args : list string)
    (checkFlag : bool) : result (option string) :=
  match args with
  | [] => Ok None
  | arg :: rest =>
    if checkFlag
    then if negb (String.eqb arg clusterName) then Ok (Some "")
         else runVersionCommand_loop clusterName rest false
    else if HasPrefix arg ClusterFlag
    then
      if String.eqb arg ClusterFlag
      then runVersionCommand_loop clusterName rest true
      else match index_result (SplitAfterN arg (ClusterFlag +++ "=") 2) 1 with
           | Panic msg => Panic msg
           | Ok value =>
             if negb (String.eqb value clusterName) then Ok (Some "")
             else runVersionCommand_loop clusterName rest false
           end
    else runVersionCommand_loop clusterName rest false
  end.

Section Executor.

Variable P : Platform.

(** [NewCommandRunner(binary, args).Run()]. *)
Definition Run_command (binary : string) (args : list string) : M (string * option string) :=
  fun w => (Ok (runner_Run P binary args), log_Invocation binary args w).

Definition runKubectlCommand (args : list string) (clusterName : string)
    (isAuthChannel : bool) : M string :=
  (* Use 'default' as a default namespace *)
  let args := ["-n"; "default"] ++ DeleteDoubleWhiteSpace args in
  (* Remove unnecessary flags *)
  exit <- lift (runKubectlCommand_loop clusterName args false isAuthChannel []) ;;
  match exit with
  | Returned text => ret text
  | Finished finalArgs isAuthChannel =>
    if Bool.eqb isAuthChannel false then ret ""
    else
      r <- Run_command kubectlBinary finalArgs ;;
      match r with
      | (out, Some err) =>
        ret (Sprintf ("Cluster: %s" +++ LF +++ "%s") [clusterName; out +++ err])
      | (out, None) =>
        ret (Sprintf ("Cluster: %s" +++ LF +++ "%s") [clusterName; out])
      end
  end.

Definition showControllerConfig : M (string * option string) :=
  fun w =>
    let configPath := Getenv w "CONFIG_PATH" in
    let configFile := filepath_Join P configPath (ConfigFileName P) in
    match ReadFile w configFile with
    | inr err => (Ok (EmptyString, Some err), w)
    | inl b =>
      let c := zero_Config in
      match (if negb (Nat.eqb (String.length b) 0) then yaml_Unmarshal P b c else inl c) with
      | inr err => (Ok (EmptyString, Some err), w)
      | inl c =>
        (* hide sensitive info *)
        let c := set_Token "" c in
        let c := set_Password "" c in
        match yaml_Marshal P c with
        | inr err => (Ok (EmptyString, Some err), w)
        | inl b => (Ok (b, None), w)
        end
      end
    end.

Definition runNotifierCommand (args : list string) (clusterName : string)
    (isAuthChannel : bool) : M string :=
  if Bool.eqb isAuthChannel false then ret ""
  else if Nat.ltb (length args) 2 then ret incompleteCmdMsg
  else
    action <- index args 1 ;;
    if String.eqb action Start then
      fun w => (Ok (Sprintf notifierStartMsg [clusterName]), set_Notify true w)
    else if String.eqb action Stop then
      fun w => (Ok (Sprintf notifierStopMsg [clusterName]), set_Notify false w)
    else if String.eqb action Status then
      fun w => (Ok (if Bool.eqb (Notify w) false
                    then Sprintf "Notifications are off for cluster '%s'" [clusterName]
                    else Sprintf "Notifications are on for cluster '%s'" [clusterName]), w)
    else if String.eqb action ShowConfig then
      r <- showControllerConfig ;;
      match r with
      | (_, Some _) => ret "Error in getting configuration!"
      | (out, None) =>
        ret (Sprintf ("Showing config for cluster '%s'" +++ LF +++ LF +++ "%s")
                     [clusterName; out])
      end
    else ret printDefaultMsg.

(** [filterengine.DefaultFilterEngine.SetFilter(name, flag)] on the registry
    of the world: the error text, if any. *)
Definition DefaultFilterEngine_SetFilter (name : string) (flag : bool) : M (option string) :=
  fun w => match SetFilter name flag (FiltersMap w) with
           | Some m => (Ok None, set_FiltersMap m w)
           | None => (Ok (Some (NotFoundError P name)), w)
           end.

(** [makeFiltersList()] on the registry of the world. *)
Definition DefaultFilterEngine_list : M string :=
  fun w => (Ok (makeFiltersList (range_order P (FiltersMap w))), w).

(** runFilterCommand to list, enable or disable filters *)
Definition runFilterCommand (args : list string) (clusterName : string)
    (isAuthChannel : bool) : M string :=
  if Bool.eqb isAuthChannel false then ret ""
  else if Nat.ltb (length args) 2 then ret incompleteCmdMsg
  else
    action <- index args 1 ;;
    if String.eqb action FilterList then DefaultFilterEngine_list
    else if String.eqb action FilterEnable then
      if Nat.ltb (length args) 3
      then l <- DefaultFilterEngine_list ;; ret (Sprintf filterNameMissing [l])
      else
        name <- index args 2 ;;
        err <- DefaultFilterEngine_SetFilter name true ;;
        match err with
        | Some text => ret text
        | None => ret (Sprintf filterEnabled [name; clusterName])
        end
    else if String.eqb action FilterDisable then
      if Nat.ltb (length args) 3
      then l <- DefaultFilterEngine_list ;; ret (Sprintf filterNameMissing [l])
      else
        name <- index args 2 ;;
        err <- DefaultFilterEngine_SetFilter name false ;;
        match err with
        | Some text => ret text
        | None => ret (Sprintf filterDisabled [name; clusterName])
        end
    else ret printDefaultMsg.

Definition findBotKubeVersion : M string :=
  let args := ["-c"; Sprintf "%s version --short=true | grep Server" [kubectlBinary]] in
  r <- Run_command "sh" args ;;
  (* Returns "Server Version: xxxx" *)
  let k8sVersion := match r with
                    | (_, Some _) => "Server Version: Unknown" +++ LF
                    | (out, None) => out
                    end in
  fun w =>
    let botkubeVersion := Getenv w "BOTKUBE_VERSION" in
    let botkubeVersion := if Nat.eqb (String.length botkubeVersion) 0
                          then "Unknown" else botkubeVersion in
    (Ok (Sprintf "K8s %sBotKube version: %s" [k8sVersion; botkubeVersion]), w).

Definition runVersionCommand (args : list string) (clusterName : string) : M string :=
  exit <- lift (runVersionCommand_loop clusterName args false) ;;
  match exit with
  | Some text => ret text
  | None => findBotKubeVersion
  end.

(** Execute executes commands and returns output.  [args[0]] is read by each
    test of the source in turn; the first read already panics when the
    message has no token. *)
Definition Execute (e : DefaultExecutor) : M string :=
  let args := Fields (Message e) in
  verb <- index args 0 ;;
  if validKubectlCommands verb then
    if negb (AllowKubectl e)
    then ret (Sprintf kubectlDisabledMsg [ClusterName e])
    else runKubectlCommand args (ClusterName e) (IsAuthChannel e)
  else if validNotifierCommand verb then
    runNotifierCommand args (ClusterName e) (IsAuthChannel e)
  else if validPingCommand verb then
    res <- runVersionCommand args (ClusterName e) ;;
    if Nat.eqb (String.length res) 0 then ret ""
    else ret (Sprintf "pong from cluster '%s'" [ClusterName e] +++ LF +++ LF +++ res)
  else if validVersionCommand verb then
    runVersionCommand args (ClusterName e)
  else if validFilterCommand verb then
    runFilterCommand args (ClusterName e) (IsAuthChannel e)
  else if IsAuthChannel e then ret unsupportedCmdMsg
  else ret "".

End Executor.

(** ** The Slack notifier ([pkg/notify/slack.go]) *)

(** Modelled from the spec: the other [config.EventType] constants are not
    under src/ either; the specification lists the event types as create,
    update, delete, error, warning, info and normal. *)
Definition UpdateEvent : string := "update".
Definition DeleteEvent : string := "delete".
Definition ErrorEvent : string := "error".
Definition WarningEvent : string := "warning".
Definition InfoEvent : string := "info".
Definition NormalEvent : string := "normal".

(** [slack.AttachmentField] and [slack.Attachment], with the fields the
    notifier sets. *)
Record AttachmentField : Type := mkAttachmentField {
  Field_Title : string;
  Field_Value : string;
  Field_Short : bool
}.

Record Attachment : Type := mkAttachment {
  Attachment_Pretext : string;
  Attachment_Title : string;
  Attachment_Fields : list AttachmentField;
  Attachment_Footer : string;
  Attachment_Ts : string;
  Attachment_Color : string
}.

(** [attachmentColor]; every level is a key of the map. *)
Definition attachmentColor (level : Level) : string :=
  match level with
  | Info => "good"
  | Warn => "warning"
  | Debug => "good"
  | Error => "danger"
  | Critical => "danger"
  end.

(** [strconv.FormatInt(i, 10)]. *)
Definition FormatInt (i : Z) : string :=
  DecimalString.NilZero.string_of_int (Z.to_int i).

(** Go's [a > b] on strings: the order of the bytes. *)
Definition string_gt (a b : string) : bool := String.ltb b a.

(** The loops [for _, m := range l { text += fmt.Sprintf(format, m) }]. *)
Definition join_lines (format : string) (l : list string) : string :=
  fold_left (fun text m => text +++ Sprintf format [m]) l EmptyString.

(** The kinds that have no namespace, as both notification layouts list them. *)
Definition cluster_scoped (kind : string) : bool :=
  existsb (String.eqb kind)
    ["Namespace"; "Node"; "PersistentVolume"; "ClusterRole"; "ClusterRoleBinding"].

Definition slackLongNotification (event : Event) : Attachment :=
  let fields :=
    [mkAttachmentField "Kind" (Kind event) true;
     mkAttachmentField "Name" (Name event) true] in
  let fields :=
    if negb (String.eqb (Namespace event) "")
    then fields ++ [mkAttachmentField "Namespace" (Namespace event) true] else fields in
  let fields :=
    if negb (String.eqb (Reason event) "")
    then fields ++ [mkAttachmentField "Reason" (Reason event) true] else fields in
  let fields :=
    if Nat.ltb 0 (length (Messages event))
    then fields ++ [mkAttachmentField "Message"
                      (join_lines ("%s" +++ LF) (Messages event)) false]
    else fields in
  let fields :=
    if negb (String.eqb (Action event) "")
    then fields ++ [mkAttachmentField "Action" (Action event) false] else fields in
  let fields :=
    if Nat.ltb 0 (length (Recommendations event))
    then fields ++ [mkAttachmentField "Recommendations"
                      (join_lines ("%s" +++ LF) (Recommendations event)) false]
    else fields in
  let fields :=
    if Nat.ltb 0 (length (Warnings event))
    then fields ++ [mkAttachmentField "Warnings"
                      (join_lines ("%s" +++ LF) (Warnings event)) false]
    else fields in
  (* Add clustername in the message *)
  let fields := fields ++ [mkAttachmentField "Cluster" (Cluster event) false] in
  mkAttachment (Sprintf "*%s*" [Title event]) "" fields "BotKube" "" "".

Definition formatShortMessage (event : Event) : string :=
  let additionalMsg :=
    if Nat.ltb 0 (length (Messages event))
    then join_lines ("%s" +++ LF) (Messages event) else "" in
  let additionalMsg :=
    if Nat.ltb 0 (length (Recommendations event))
    then additionalMsg
         +++ Sprintf ("Recommendations:" +++ LF +++ "%s")
                     [join_lines ("- %s" +++ LF) (Recommendations event)]
    else additionalMsg in
  let additionalMsg :=
    if Nat.ltb 0 (length (Warnings event))
    then additionalMsg
         +++ Sprintf ("Warnings:" +++ LF +++ "%s")
                     [join_lines ("- %s" +++ LF) (Warnings event)]
    else additionalMsg in
  let ty := Type_ event in
  let msg :=
    if String.eqb ty CreateEvent || String.eqb ty DeleteEvent || String.eqb ty UpdateEvent
    then
      if cluster_scoped (Kind event)
      then Sprintf ("%s *%s* has been %s in *%s* cluster" +++ LF)
                   [Kind event; Name event; ty +++ "d"; Cluster event]
      else Sprintf ("%s *%s/%s* has been %s in *%s* cluster" +++ LF)
                   [Kind event; Namespace event; Name event; ty +++ "d"; Cluster event]
    else if String.eqb ty ErrorEvent
    then
      if cluster_scoped (Kind event)
      then Sprintf ("Error Occurred in %s: *%s* in *%s* cluster" +++ LF)
                   [Kind event; Name event; Cluster event]
      else Sprintf ("Error Occurred in %s: *%s/%s* in *%s* cluster" +++ LF)
                   [Kind event; Namespace event; Name event; Cluster event]
    else if String.eqb ty WarningEvent
    then
      if cluster_scoped (Kind event)
      then Sprintf ("Warning %s: *%s* in *%s* cluster" +++ LF)
                   [Kind event; Name event; Cluster event]
      else Sprintf ("Warning %s: *%s/%s* in *%s* cluster" +++ LF)
                   [Kind event; Namespace event; Name event; Cluster event]
    else if String.eqb ty InfoEvent || String.eqb ty NormalEvent
    then
      if cluster_scoped (Kind event)
      then Sprintf ("%s Info: *%s* in *%s* cluster" +++ LF)
                   [Kind event; Name event; Cluster event]
      else Sprintf ("%s Info: *%s/%s* in *%s* cluster" +++ LF)
                   [Kind event; Namespace event; Name event; Cluster event]
    else "" in
  (* Add message in the attachment if there is any *)
  if Nat.ltb 0 (String.length additionalMsg)
  then msg +++ Sprintf ("```" +++ LF +++ "%s```") [additionalMsg]
  else msg.

Definition slackShortNotification (event : Event) : Attachment :=
  mkAttachment "" (Title event) [mkAttachmentField "" (formatShortMessage event) false]
               "BotKube" "" "".

Definition set_Ts (ts : string) (a : Attachment) : Attachment :=
  mkAttachment (Attachment_Pretext a) (Attachment_Title a) (Attachment_Fields a)
               (Attachment_Footer a) ts (Attachment_Color a).

Definition set_Color (color : string) (a : Attachment) : Attachment :=
  mkAttachment (Attachment_Pretext a) (Attachment_Title a) (Attachment_Fields a)
               (Attachment_Footer a) (Attachment_Ts a) color.

(** [formatSlackMessage]; [LongNotify] is [config.LongNotify], a constant of
    a package that is not under src/: every other [notifyType], the short one
    included, takes the [default] branch. *)
Definition formatSlackMessage (LongNotify : string) (event : Event) (notifyType : string)
  : Attachment :=
  let attachment :=
    if String.eqb notifyType LongNotify then slackLongNotification event
    else slackShortNotification event in
  (* Add timestamp *)
  let ts := FormatInt (TimeStamp event) in
  let attachment := if string_gt ts "0" then set_Ts ts attachment else attachment in
  set_Color (attachmentColor (Level_ event)) attachment.

(** ** Sample inputs *)

(** A platform whose runner echoes the binary and whose YAML codec prints
    the fields of the configuration in the block style of [yaml.v2]. *)
Definition sample_Marshal (c : config_Config) : string + string :=
  inl ("communications:" +++ LF +++
       "  slack:" +++ LF +++
       "    channel: " +++ Slack_Channel (Slack (Communications c)) +++ LF +++
       "    notiftype: " +++ NotifType (Slack (Communications c)) +++ LF +++
       "    token: " +++ Token (Slack (Communications c)) +++ LF +++
       "  elasticsearch:" +++ LF +++
       "    password: " +++ Password (ElasticSearch (Communications c)) +++ LF).

Definition sample_Platform : Platform :=
  mkPlatform (fun binary _ => ("ran " +++ binary, None))
             (fun m => m)
             (fun name => "Invalid filter name " +++ name)
             "config.yaml"
             (fun dir file => dir +++ "/" +++ file)
             (fun _ c => inl c)
             sample_Marshal.

(** Two filters for the listing. *)
Definition filter_Alpha : Filter := mkFilter "Alpha" "first" (fun _ event => event).
Definition filter_Beta : Filter := mkFilter "Beta" "second" (fun _ event => event).

(** A platform whose range over the filter map yields the entries in the
    reverse of the order of [sample_Platform]. *)
Definition reversed_Platform : Platform :=
  mkPlatform (runner_Run sample_Platform) (@rev (Filter * bool))
             (NotFoundError sample_Platform) (ConfigFileName sample_Platform)
             (filepath_Join sample_Platform) (yaml_Unmarshal sample_Platform)
             (yaml_Marshal sample_Platform).

Definition two_filters_World : World :=
  mkWorld true [(filter_Alpha, true); (filter_Beta, false)]
          (fun _ => EmptyString) (fun _ => inr "no such file") [].

(** A stored configuration whose Slack channel and Slack token are the same
    text, the file that holds it, and a platform whose decoder reads that
    file. *)
Definition shared_text_config : config_Config :=
  mkConfig (mkCommunications (mkSlack "general" "general" "short") (mkElasticSearch "hunter2")).

Definition shared_text_file : string :=
  "communications:" +++ LF +++
  "  slack:" +++ LF +++
  "    channel: general" +++ LF +++
  "    notiftype: short" +++ LF +++
  "    token: general" +++ LF +++
  "  elasticsearch:" +++ LF +++
  "    password: hunter2" +++ LF.

Definition shared_text_Platform : Platform :=
  mkPlatform (runner_Run sample_Platform) (range_order sample_Platform)
             (NotFoundError sample_Platform) (ConfigFileName sample_Platform)
             (filepath_Join sample_Platform)
             (fun b c => if String.eqb b shared_text_file then inl shared_text_config
                         else inr "yaml: unmarshal errors")
             sample_Marshal.

Definition shared_text_World : World :=
  mkWorld true []
          (fun name => if String.eqb name "CONFIG_PATH" then "/config" else EmptyString)
          (fun path => if String.eqb path "/config/config.yaml" then inl shared_text_file
                       else inr "no such file")
          [].

Definition sample_World : World :=
  mkWorld true
          [(ImageTagChecker "Checks and adds recommendation if 'latest' image tag is used for container image.", true)]
          (fun _ => EmptyString)
          (fun _ => inr "no such file")
          [].

(** ** Vocabulary of the statements *)

(** A token the sanitizer drops as a streaming or watch flag: the tests of
    the loop of [runKubectlCommand]. *)
Definition is_stream_flag (arg : string) : bool :=
  (String.eqb arg AbbrFollowFlag || HasPrefix arg FollowFlag)
  || (String.eqb arg AbbrWatchFlag || HasPrefix arg WatchFlag).

(** A token the sanitizer forwards when it is not part of a cluster-scope
    flag. *)
Definition keep (t : string) : bool := negb (is_stream_flag t).

(** A token the sanitizer reads as (the start of) a cluster-scope flag. *)
Definition is_cluster_token (arg : string) : bool := HasPrefix arg ClusterFlag.

Definition cluster_free (toks : list string) : Prop :=
  Forall (fun t => is_cluster_token t = false) toks.

(** What [runKubectlCommand] answers once the runner was given [finalArgs]. *)
Definition kubectl_response (P : Platform) (clusterName : string)
    (finalArgs : list string) : string :=
  match runner_Run P kubectlBinary finalArgs with
  | (out, Some err) => Sprintf ("Cluster: %s" +++ LF +++ "%s") [clusterName; out +++ err]
  | (out, None) => Sprintf ("Cluster: %s" +++ LF +++ "%s") [clusterName; out]
  end.

(** The tokens after the verb carry a cluster-scope flag, in either form,
    whose value is not the local cluster identity, and no token before it
    starts a cluster-scope flag. *)
Definition cluster_mismatch (clusterName : string) (toks : list string) : Prop :=
  exists (pre flag post : list string) (value : string),
    toks = pre ++ flag ++ post
    /\ cluster_free pre
    /\ (flag = [ClusterFlag +++ "=" +++ value] \/ flag = [ClusterFlag; value])
    /\ trimQuotes value <> clusterName.

(** Neither the channel nor a cluster-scope flag establishes authorization. *)
Definition no_authorization (isAuthChannel : bool) (toks : list string) : Prop :=
  isAuthChannel = false /\ cluster_free toks.

(** The recommendation [ImageTagChecker.Run] appends for one container, if
    any. *)
Definition advice (role : string) (c : Container) : list string := check_image role [] c.

(** [s] holds no byte [sep]. *)
Fixpoint free_of (sep : ascii) (s : string) : bool :=
  match s with
  | EmptyString => true
  | String c s' => negb (Ascii.eqb c sep) && free_of sep s'
  end.

(** Text that the tab writer copies as it is: no horizontal or vertical tab,
    no line feed, no form feed, no escape byte. *)
Definition plain (s : string) : bool :=
  free_of (ascii_of_nat 9) s && free_of (ascii_of_nat 10) s
  && free_of (ascii_of_nat 11) s && free_of (ascii_of_nat 12) s
  && free_of (ascii_of_nat 255) s.

Definition plain_filter (kv : Filter * bool) : Prop :=
  plain (TypeName (fst kv)) = true /\ plain (Describe (fst kv)) = true.

(** Width of the first column of the listing: the longest of ["FILTER"] and
    the filter names, plus one blank. *)
Definition name_column (visit : list (Filter * bool)) : nat :=
  fold_left (fun width kv => Nat.max width (TabWriter.RuneCount (TypeName (fst kv)) + 1))
            visit 7.

(** A row of the listing: the name and the enabled state, each padded to its
    column, and the description. *)
Definition listing_row (width : nat) (name enabled description : string) : string :=
  (TabWriter.pad name width +++ TabWriter.pad enabled 8 +++ description) +++ LF.

Definition listing_rows (width : nat) (visit : list (Filter * bool)) : list string :=
  map (fun kv => listing_row width (TypeName (fst kv)) (FormatBool (snd kv))
                             (Describe (fst kv)))
      visit.

(** The table [makeFiltersList] writes: the header and one row per visited
    filter, each a name, an enabled state and a description. *)
Definition table_rows (visit : list (Filter * bool)) : list (string * string * string) :=
  ("FILTER", "ENABLED", "DESCRIPTION")
    :: map (fun kv => (TypeName (fst kv), FormatBool (snd kv), Describe (fst kv))) visit.

Definition row_text (r : string * string * string) : string :=
  let '(a, b, d) := r in a +++ TAB +++ b +++ TAB +++ d.

Definition row_cells (r : string * string * string) : list string :=
  let '(a, b, d) := r in [a; b; d].

Definition plain_row (r : string * string * string) : Prop :=
  let '(a, b, d) := r in plain a = true /\ plain b = true /\ plain d = true.

(** The configuration file of the world decodes to [c]: the file can be
    read, and it is empty and [c] the zero configuration, or the YAML decoder
    fills the zero configuration into [c]. *)
Definition stored_config (P : Platform) (w : World) (c : config_Config) : Prop :=
  exists b : string,
    ReadFile w (filepath_Join P (Getenv w "CONFIG_PATH") (ConfigFileName P)) = inl b
    /\ (if Nat.eqb (String.length b) 0 then c = zero_Config
        else yaml_Unmarshal P b zero_Config = inl c).

(** A configuration with the Slack token and the ElasticSearch password
    zeroed. *)
Definition redacted (c : config_Config) : config_Config :=
  set_Password "" (set_Token "" c).

(** What [showControllerConfig] returns once the configuration [c] is
    handed to the YAML encoder. *)
Definition rendering (P : Platform) (c : config_Config) : string * option string :=
  match yaml_Marshal P c with
  | inr err => (EmptyString, Some err)
  | inl b => (b, None)
  end.

(** The first byte of [s] is a quote character. *)
Definition head_is_quote (s : string) : bool :=
  match s with
  | EmptyString => false
  | String c _ => isQuote c
  end.

(** The arguments [findBotKubeVersion] gives to [sh]. *)
Definition version_args : list string :=
  ["-c"; Sprintf "%s version --short=true | grep Server" [kubectlBinary]].

(** The event with another namespace. *)
Definition set_Namespace (ns : string) (event : Event) : Event :=
  mkEvent (Title event) (Kind event) (Name event) ns (Reason event)
          (Action event) (Cluster event) (Channel event) (Type_ event)
          (Messages event) (Recommendations event) (Warnings event)
          (TimeStamp event) (Level_ event).

(** What one call of [Execute] can do to the world. *)
Inductive world_step (e : DefaultExecutor) (w : World) : World -> Prop :=
| step_none : world_step e w w
| step_kubectl (finalArgs : list string) :
    AllowKubectl e = true ->
    world_step e w (log_Invocation kubectlBinary finalArgs w)
| step_version : world_step e w (log_Invocation "sh" version_args w)
| step_notify (b : bool) :
    IsAuthChannel e = true -> world_step e w (set_Notify b w)
| step_filters (m : list (Filter * bool)) :
    IsAuthChannel e = true -> world_step e w (set_FiltersMap m w).

(** The sub-commands [runNotifierCommand] and [runFilterCommand] know. *)
Definition known_action (verb action : string) : bool :=
  if String.eqb verb "notifier"
  then existsb (String.eqb action) [Start; Stop; Status; ShowConfig]
  else existsb (String.eqb action) [FilterList; FilterEnable; FilterDisable].

(** The path of the configuration file. *)
Definition config_path (P : Platform) (w : World) : string :=
  filepath_Join P (Getenv w "CONFIG_PATH") (ConfigFileName P).

(** Decides the tests of [Execute] on a verb that is given. *)
Ltac route :=
  cbn [validKubectlCommands validNotifierCommand validPingCommand validVersionCommand
       validFilterCommand existsb String.eqb Ascii.eqb Bool.eqb orb].

(** The comparison as the specification words it: a single layer of
    surrounding quote characters is trimmed from the value. *)
Definition trim_head_quote (s : string) : string :=
  match s with
  | EmptyString => EmptyString
  | String c s' => if isQuote c then s' else s
  end.

Definition trimOneQuoteLayer (s : string) : string :=
  rev_string (trim_head_quote (rev_string (trim_head_quote s))).

(** * Properties *)

(** ** The string functions *)

Example Fields_example :
  Fields "  get   pods -n  kube-system " = ["get"; "pods"; "-n"; "kube-system"].
Proof. reflexivity. Qed.

Lemma flush_nonempty (tok : string) : Forall (fun t => t <> EmptyString) (flush tok).
Proof.
  destruct tok as [|c tok]; simpl; constructor; [discriminate | constructor].
Qed.

Lemma Fields_scan_nonempty (s : string) :
  forall skip tok, Forall (fun t => t <> EmptyString) (Fields_scan skip tok s).
Proof.
  induction s as [|c s IH]; intros skip tok.
  - apply flush_nonempty.
  - cbn [Fields_scan]. destruct skip as [|k]; [|apply IH].
    destruct (space_width (String c s)) as [|k].
    + apply IH.
    + apply Forall_app; split; [apply flush_nonempty | apply IH].
Qed.

(** No token of [strings.Fields] is empty. *)
Lemma Fields_nonempty (s : string) : Forall (fun t => t <> EmptyString) (Fields s).
Proof. apply Fields_scan_nonempty. Qed.

Lemma DeleteDoubleWhiteSpace_id (toks : list string) :
  Forall (fun t => t <> EmptyString) toks -> DeleteDoubleWhiteSpace toks = toks.
Proof.
  induction 1 as [|t toks Ht _ IH]; [reflexivity|].
  unfold DeleteDoubleWhiteSpace in *; cbn [filter].
  destruct (String.eqb_spec t EmptyString) as [E|_]; [contradiction|].
  cbn [negb]. now rewrite IH.
Qed.

(** ** Routing *)

Lemma Execute_unfold_verb (P : Platform) (e : DefaultExecutor) (w : World)
    {verb : string} {rest : list string} :
  Fields (Message e) = verb :: rest ->
  Execute P e w =
  (if validKubectlCommands verb then
     if negb (AllowKubectl e)
     then ret (Sprintf kubectlDisabledMsg [ClusterName e])
     else runKubectlCommand P (verb :: rest) (ClusterName e) (IsAuthChannel e)
   else if validNotifierCommand verb then
     runNotifierCommand P (verb :: rest) (ClusterName e) (IsAuthChannel e)
   else if validPingCommand verb then
     res <- runVersionCommand P (verb :: rest) (ClusterName e) ;;
     if Nat.eqb (String.length res) 0 then ret ""
     else ret (Sprintf "pong from cluster '%s'" [ClusterName e] +++ LF +++ LF +++ res)
   else if validVersionCommand verb then
     runVersionCommand P (verb :: rest) (ClusterName e)
   else if validFilterCommand verb then
     runFilterCommand P (verb :: rest) (ClusterName e) (IsAuthChannel e)
   else if IsAuthChannel e then ret unsupportedCmdMsg
   else ret "") w.
Proof.
  intros H. unfold Execute. rewrite H. reflexivity.
Qed.

Lemma Execute_disabled (P : Platform) (e : DefaultExecutor) (w : World)
    (verb : string) (rest : list string) :
  Fields (Message e) = verb :: rest ->
  validKubectlCommands verb = true ->
  AllowKubectl e = false ->
  Execute P e w = (Ok (Sprintf kubectlDisabledMsg [ClusterName e]), w).
Proof.
  intros Hf Hv Ha.
  rewrite (Execute_unfold_verb P e w Hf), Hv, Ha. reflexivity.
Qed.

(** C4. A message whose first token is a cluster-command verb, on a
    deployment where passthrough is disabled, is answered with the fixed
    not-permitted message for the cluster; the world is untouched (the
    runner is not invoked) whatever the other tokens and the channel are. *)
Theorem kubectl_disabled_message (P : Platform) (e : DefaultExecutor) (w : World)
    (verb : string) (rest : list string) :
  Fields (Message e) = verb :: rest ->
  validKubectlCommands verb = true ->
  AllowKubectl e = false ->
  Execute P e w = (Ok (Sprintf kubectlDisabledMsg [ClusterName e]), w).
Proof. exact (Execute_disabled P e w verb rest). Qed.

Lemma kubectl_disabled_message_witness :
  Execute sample_Platform
          (NewDefaultExecutor "get pods --cluster-namefoo" false "prod" "general" true)
          sample_World
  = (Ok "Sorry, the admin hasn't given me the permission to execute kubectl command on cluster 'prod'.",
     sample_World).
Proof.
  apply (kubectl_disabled_message sample_Platform
           (NewDefaultExecutor "get pods --cluster-namefoo" false "prod" "general" true)
           sample_World "get" ["pods"; "--cluster-namefoo"]);
    reflexivity.
Defined.

(** C9. A message whose first token is in none of the five verb tables is
    answered with the fixed unsupported-command message on a pre-authorized
    channel and with the empty string elsewhere. *)
Theorem unknown_verb_response (P : Platform) (e : DefaultExecutor) (w : World)
    (verb : string) (rest : list string) :
  Fields (Message e) = verb :: rest ->
  validKubectlCommands verb = false ->
  validNotifierCommand verb = false ->
  validFilterCommand verb = false ->
  validPingCommand verb = false ->
  validVersionCommand verb = false ->
  Execute P e w = (Ok (if IsAuthChannel e then unsupportedCmdMsg else ""), w).
Proof.
  intros Hf Hk Hn Hfl Hp Hv.
  rewrite (Execute_unfold_verb P e w Hf), Hk, Hn, Hfl, Hp, Hv.
  now destruct (IsAuthChannel e).
Qed.

Lemma unknown_verb_response_witness :
  Execute sample_Platform (NewDefaultExecutor "delete pod web" true "prod" "general" true)
          sample_World
  = (Ok "Command not supported. Please run /botkubehelp to see supported commands.",
     sample_World)
  /\ Execute sample_Platform (NewDefaultExecutor "delete pod web" true "prod" "random" false)
             sample_World
     = (Ok "", sample_World).
Proof.
  split.
  - apply (unknown_verb_response sample_Platform
             (NewDefaultExecutor "delete pod web" true "prod" "general" true)
             sample_World "delete" ["pod"; "web"]); reflexivity.
  - apply (unknown_verb_response sample_Platform
             (NewDefaultExecutor "delete pod web" true "prod" "random" false)
             sample_World "delete" ["pod"; "web"]); reflexivity.
Defined.

(** C10. A notifier or filter command from a channel that is not
    pre-authorized is answered with the empty string and leaves the world as
    it was: [config.Notify] and every enabled flag of the registry keep
    their values. *)
Theorem unauthorized_admin_command_is_silent (P : Platform) (e : DefaultExecutor)
    (w : World) (verb : string) (rest : list string) :
  Fields (Message e) = verb :: rest ->
  validNotifierCommand verb = true \/ validFilterCommand verb = true ->
  IsAuthChannel e = false ->
  Execute P e w = (Ok "", w).
Proof.
  intros Hf Hverb Ha.
  rewrite (Execute_unfold_verb P e w Hf).
  assert (Hv : verb = "notifier" \/ verb = "filters").
  { destruct Hverb as [H|H]; [left|right];
      unfold validNotifierCommand, validFilterCommand in H; cbn [existsb] in H;
      rewrite orb_false_r in H; now apply String.eqb_eq in H. }
  destruct Hv as [-> | ->]; cbn;
    unfold runNotifierCommand, runFilterCommand; rewrite Ha; reflexivity.
Qed.

Lemma unauthorized_admin_command_is_silent_witness :
  Execute sample_Platform (NewDefaultExecutor "notifier stop" true "prod" "random" false)
          sample_World = (Ok "", sample_World)
  /\ Execute sample_Platform
             (NewDefaultExecutor "filters disable ImageTagChecker" true "prod" "random" false)
             sample_World = (Ok "", sample_World).
Proof.
  split.
  - apply (unauthorized_admin_command_is_silent sample_Platform
             (NewDefaultExecutor "notifier stop" true "prod" "random" false)
             sample_World "notifier" ["stop"]);
      [reflexivity | left; reflexivity | reflexivity].
  - apply (unauthorized_admin_command_is_silent sample_Platform
             (NewDefaultExecutor "filters disable ImageTagChecker" true "prod" "random" false)
             sample_World "filters" ["disable"; "ImageTagChecker"]);
      [reflexivity | right; reflexivity | reflexivity].
Defined.

(** ** The sanitizer loop *)

(** Tokens that do not start a cluster-scope flag are dropped when they are
    streaming or watch flags and forwarded otherwise. *)
Lemma loop_cluster_free (cn : string) (pre : list string) :
  forall (rest : list string) (auth : bool) (fin : list string),
  cluster_free pre ->
  runKubectlCommand_loop cn (pre ++ rest) false auth fin
  = runKubectlCommand_loop cn rest false auth (fin ++ filter keep pre).
Proof.
  induction pre as [|a pre IH]; intros rest auth fin Hfree.
  - cbn [app filter]. now rewrite app_nil_r.
  - inversion Hfree as [|? ? Ha Hpre]; subst.
    unfold is_cluster_token in Ha.
    cbn [app runKubectlCommand_loop filter]. unfold keep at 1, is_stream_flag.
    destruct (String.eqb a AbbrFollowFlag || HasPrefix a FollowFlag) eqn:E1;
      cbn [orb negb].
    + now apply IH.
    + destruct (String.eqb a AbbrWatchFlag || HasPrefix a WatchFlag) eqn:E2;
        cbn [negb].
      * now apply IH.
      * rewrite Ha, (IH rest auth (fin ++ [a]) Hpre), <- app_assoc. reflexivity.
Qed.

Lemma loop_finishes (cn : string) (toks : list string) (auth : bool) (fin : list string) :
  cluster_free toks ->
  runKubectlCommand_loop cn toks false auth fin = Ok (Finished (fin ++ filter keep toks) auth).
Proof.
  intros H. rewrite <- (app_nil_r toks) at 1.
  now rewrite loop_cluster_free.
Qed.

(** The one-token form [--cluster-name=value]. *)
Lemma loop_assignment (cn value : string) (rest : list string) (auth : bool)
    (fin : list string) :
  runKubectlCommand_loop cn ((ClusterFlag +++ "=" +++ value) :: rest) false auth fin
  = if negb (String.eqb (trimQuotes value) cn) then Ok (Returned "")
    else runKubectlCommand_loop cn rest false true fin.
Proof. destruct value; reflexivity. Qed.

(** The two-token form [--cluster-name value]: the value is consumed. *)
Lemma loop_two_tokens (cn value : string) (rest : list string) (auth : bool)
    (fin : list string) :
  runKubectlCommand_loop cn (ClusterFlag :: value :: rest) false auth fin
  = if negb (String.eqb (trimQuotes value) cn) then Ok (Returned "")
    else runKubectlCommand_loop cn rest false true fin.
Proof. reflexivity. Qed.

Lemma loop_flag (cn value : string) (flag rest : list string) (auth : bool)
    (fin : list string) :
  flag = [ClusterFlag +++ "=" +++ value] \/ flag = [ClusterFlag; value] ->
  runKubectlCommand_loop cn (flag ++ rest) false auth fin
  = if negb (String.eqb (trimQuotes value) cn) then Ok (Returned "")
    else runKubectlCommand_loop cn rest false true fin.
Proof.
  intros [-> | ->]; cbn [app]; [apply loop_assignment | apply loop_two_tokens].
Qed.

Lemma valid_verb_plain (verb : string) :
  validKubectlCommands verb = true ->
  is_cluster_token verb = false /\ is_stream_flag verb = false.
Proof.
  unfold validKubectlCommands. cbn [existsb]. intros H.
  repeat (apply orb_true_iff in H; destruct H as [H|H];
          [apply String.eqb_eq in H; subst; split; reflexivity|]).
  discriminate.
Qed.

(** The argument list the loop starts from, for the tokens of a message. *)
Lemma kubectl_args_of_message (msg verb : string) (toks : list string) :
  Fields msg = verb :: toks ->
  ["-n"; "default"] ++ DeleteDoubleWhiteSpace (verb :: toks)
  = ["-n"; "default"; verb] ++ toks.
Proof.
  intros H. rewrite DeleteDoubleWhiteSpace_id; [reflexivity|].
  rewrite <- H. apply Fields_nonempty.
Qed.

Lemma cluster_free_head (verb : string) :
  validKubectlCommands verb = true -> cluster_free ["-n"; "default"; verb].
Proof.
  intros H. destruct (valid_verb_plain verb H) as [Hc _].
  repeat constructor. exact Hc.
Qed.

Lemma keep_head (verb : string) :
  validKubectlCommands verb = true ->
  filter keep ["-n"; "default"; verb] = ["-n"; "default"; verb].
Proof.
  intros H. destruct (valid_verb_plain verb H) as [_ Hs].
  cbn [filter]. unfold keep at 3. rewrite Hs. reflexivity.
Qed.

(** The loop on a message that carries one cluster-scope flag. *)
Lemma loop_one_flag (cn verb value : string) (pre flag post : list string) (auth : bool) :
  validKubectlCommands verb = true ->
  flag = [ClusterFlag +++ "=" +++ value] \/ flag = [ClusterFlag; value] ->
  cluster_free pre ->
  runKubectlCommand_loop cn (["-n"; "default"; verb] ++ pre ++ flag ++ post) false auth []
  = if negb (String.eqb (trimQuotes value) cn) then Ok (Returned "")
    else runKubectlCommand_loop cn post false true
           (["-n"; "default"; verb] ++ filter keep pre).
Proof.
  intros Hv Hflag Hpre.
  rewrite (loop_cluster_free cn ["-n"; "default"; verb] _ auth [] (cluster_free_head verb Hv)).
  rewrite (loop_cluster_free cn pre _ auth _ Hpre).
  rewrite (loop_flag cn value flag post auth _ Hflag).
  rewrite (keep_head verb Hv). reflexivity.
Qed.

(** ** Cluster-command passthrough *)

Lemma runKubectlCommand_unfold (P : Platform) (args : list string) (cn : string)
    (auth : bool) (w : World) :
  runKubectlCommand P args cn auth w
  = match runKubectlCommand_loop cn (["-n"; "default"] ++ DeleteDoubleWhiteSpace args)
                                 false auth [] with
    | Panic msg => (Panic msg, w)
    | Ok (Returned text) => (Ok text, w)
    | Ok (Finished finalArgs isAuth) =>
      if Bool.eqb isAuth false then (Ok "", w)
      else (Ok (kubectl_response P cn finalArgs), log_Invocation kubectlBinary finalArgs w)
    end.
Proof.
  unfold runKubectlCommand, bind, lift, ret, Run_command, kubectl_response.
  destruct (runKubectlCommand_loop cn _ false auth []) as [[text|fa a]|msg];
    try reflexivity.
  destruct (Bool.eqb a false); [reflexivity|].
  destruct (runner_Run P kubectlBinary fa) as [out [err|]]; reflexivity.
Qed.

Lemma Execute_kubectl (P : Platform) (e : DefaultExecutor) (w : World)
    (verb : string) (toks : list string) :
  Fields (Message e) = verb :: toks ->
  validKubectlCommands verb = true ->
  AllowKubectl e = true ->
  Execute P e w
  = match runKubectlCommand_loop (ClusterName e) (["-n"; "default"; verb] ++ toks)
                                 false (IsAuthChannel e) [] with
    | Panic msg => (Panic msg, w)
    | Ok (Returned text) => (Ok text, w)
    | Ok (Finished finalArgs isAuth) =>
      if Bool.eqb isAuth false then (Ok "", w)
      else (Ok (kubectl_response P (ClusterName e) finalArgs),
            log_Invocation kubectlBinary finalArgs w)
    end.
Proof.
  intros Hf Hv Ha.
  rewrite (Execute_unfold_verb P e w Hf), Hv, Ha. cbn [negb].
  rewrite runKubectlCommand_unfold, (kubectl_args_of_message (Message e) verb toks Hf). reflexivity.
Qed.

(** C2 (as amended). A cluster command that carries one cluster-scope flag,
    in the form [--cluster-name=value] or [--cluster-name value], no other
    token starting with [--cluster-name]: the value is compared with the
    local cluster identity after every leading and trailing quote character
    was trimmed.  When they are equal the runner is given ["-n" "default"],
    the verb and the other tokens that are not streaming or watch flags,
    whether or not the channel is pre-authorized; when they differ the answer
    is empty and the world is untouched. *)
Theorem cluster_flag_scoping (P : Platform) (e : DefaultExecutor) (w : World)
    (verb value : string) (pre flag post : list string) :
  Fields (Message e) = verb :: pre ++ flag ++ post ->
  validKubectlCommands verb = true ->
  AllowKubectl e = true ->
  flag = [ClusterFlag +++ "=" +++ value] \/ flag = [ClusterFlag; value] ->
  cluster_free pre ->
  cluster_free post ->
  Execute P e w
  = if String.eqb (trimQuotes value) (ClusterName e)
    then let finalArgs := "-n" :: "default" :: verb :: filter keep (pre ++ post) in
         (Ok (kubectl_response P (ClusterName e) finalArgs),
          log_Invocation kubectlBinary finalArgs w)
    else (Ok "", w).
Proof.
  intros Hf Hv Ha Hflag Hpre Hpost.
  rewrite (Execute_kubectl P e w _ _ Hf Hv Ha).
  rewrite (loop_one_flag (ClusterName e) verb value pre flag post (IsAuthChannel e) Hv Hflag Hpre).
  destruct (String.eqb (trimQuotes value) (ClusterName e)); cbn [negb]; [|reflexivity].
  rewrite (loop_finishes _ _ _ _ Hpost). cbn [Bool.eqb].
  rewrite filter_app, <- app_assoc. reflexivity.
Qed.

Lemma cluster_flag_scoping_witness :
  Execute sample_Platform
          (NewDefaultExecutor "get pods --cluster-name=prod" true "prod" "random" false)
          sample_World
  = (Ok ("Cluster: prod" +++ LF +++ "ran /usr/local/bin/kubectl"),
     log_Invocation kubectlBinary ["-n"; "default"; "get"; "pods"] sample_World)
  /\ Execute sample_Platform
             (NewDefaultExecutor "get pods --cluster-name 'prod' -o wide" true "staging"
                                 "random" false)
             sample_World
     = (Ok "", sample_World).
Proof.
  split.
  - apply (cluster_flag_scoping sample_Platform
             (NewDefaultExecutor "get pods --cluster-name=prod" true "prod" "random" false)
             sample_World "get" "prod" ["pods"] ["--cluster-name=prod"] []);
      try reflexivity; [left; reflexivity | repeat constructor | constructor].
  - apply (cluster_flag_scoping sample_Platform
             (NewDefaultExecutor "get pods --cluster-name 'prod' -o wide" true "staging"
                                 "random" false)
             sample_World "get" "'prod'" ["pods"] ["--cluster-name"; "'prod'"] ["-o"; "wide"]);
      try reflexivity; [right; reflexivity | repeat constructor | repeat constructor].
Defined.

(** The specification trims one layer of quotes; the code trims them all:
    the value [''prod''] is [prod] for the code, so the command runs although
    the value with one layer removed is not the local identity. *)
Lemma quotes_trimmed_beyond_one_layer :
  trimOneQuoteLayer "''prod''" <> "prod"
  /\ Execute sample_Platform
             (NewDefaultExecutor "get pods --cluster-name=''prod''" true "prod" "random" false)
             sample_World
     = (Ok ("Cluster: prod" +++ LF +++ "ran /usr/local/bin/kubectl"),
        log_Invocation kubectlBinary ["-n"; "default"; "get"; "pods"] sample_World).
Proof.
  split; [discriminate | reflexivity].
Qed.

(** C3 (as amended). On a cluster command whose cluster-scope flag names
    another cluster, or for which neither the channel nor a cluster-scope
    flag establishes authorization, the answer is the empty string and the
    world is untouched (the runner is not invoked), provided passthrough is
    enabled; when passthrough is disabled the answer is the fixed
    not-permitted message, the world untouched as well. *)
Theorem denied_cluster_command (P : Platform) (e : DefaultExecutor) (w : World)
    (verb : string) (toks : list string) :
  Fields (Message e) = verb :: toks ->
  validKubectlCommands verb = true ->
  (AllowKubectl e = true ->
   cluster_mismatch (ClusterName e) toks \/ no_authorization (IsAuthChannel e) toks ->
   Execute P e w = (Ok "", w))
  /\ (AllowKubectl e = false ->
      Execute P e w = (Ok (Sprintf kubectlDisabledMsg [ClusterName e]), w)).
Proof.
  intros Hf Hv. split.
  - intros Ha [(pre & flag & post & value & -> & Hpre & Hflag & Hne) | [Hauth Hfree]].
    + rewrite (Execute_kubectl P e w _ _ Hf Hv Ha).
      rewrite (loop_one_flag (ClusterName e) verb value pre flag post (IsAuthChannel e)
                             Hv Hflag Hpre).
      destruct (String.eqb_spec (trimQuotes value) (ClusterName e)); [contradiction|].
      reflexivity.
    + rewrite (Execute_kubectl P e w _ _ Hf Hv Ha).
      rewrite loop_finishes.
      * rewrite Hauth. reflexivity.
      * apply Forall_app. split; [now apply cluster_free_head | exact Hfree].
  - intros Ha. now apply Execute_disabled with (verb := verb) (rest := toks).
Qed.

Lemma denied_cluster_command_witness :
  Execute sample_Platform
          (NewDefaultExecutor "get pods --cluster-name staging --cluster-namefoo" true "prod"
                              "general" true)
          sample_World = (Ok "", sample_World)
  /\ Execute sample_Platform (NewDefaultExecutor "get pods" true "prod" "random" false)
             sample_World = (Ok "", sample_World)
  /\ Execute sample_Platform (NewDefaultExecutor "get pods" false "prod" "random" false)
             sample_World
     = (Ok "Sorry, the admin hasn't given me the permission to execute kubectl command on cluster 'prod'.",
        sample_World).
Proof.
  split; [|split].
  - apply (denied_cluster_command sample_Platform
             (NewDefaultExecutor "get pods --cluster-name staging --cluster-namefoo" true
                                 "prod" "general" true)
             sample_World "get" ["pods"; "--cluster-name"; "staging"; "--cluster-namefoo"]);
      try reflexivity.
    left. exists ["pods"], ["--cluster-name"; "staging"], ["--cluster-namefoo"], "staging".
    repeat split; [repeat constructor | right; reflexivity | discriminate].
  - apply (denied_cluster_command sample_Platform
             (NewDefaultExecutor "get pods" true "prod" "random" false)
             sample_World "get" ["pods"]); try reflexivity.
    right. split; [reflexivity | repeat constructor].
  - apply (denied_cluster_command sample_Platform
             (NewDefaultExecutor "get pods" false "prod" "random" false)
             sample_World "get" ["pods"]); reflexivity.
Defined.

(** Passthrough disabled is a denial that is answered with a message, not
    with silence. *)
Lemma disabled_passthrough_is_not_silent :
  fst (Execute sample_Platform (NewDefaultExecutor "get pods" false "prod" "general" true)
               sample_World)
  = Ok "Sorry, the admin hasn't given me the permission to execute kubectl command on cluster 'prod'."
  /\ fst (Execute sample_Platform (NewDefaultExecutor "get pods" false "prod" "general" true)
                  sample_World)
     <> Ok "".
Proof.
  split; [reflexivity | discriminate].
Qed.

(** ** Panics *)

(** A message without a token makes [Execute] read [args[0]] of an empty
    slice. *)
Lemma Execute_without_token (P : Platform) (e : DefaultExecutor) (w : World) :
  Fields (Message e) = [] -> Execute P e w = (Panic "index out of range", w).
Proof.
  intros H. unfold Execute. now rewrite H.
Qed.

(** C1. The executor panics instead of answering: on a message without a
    token ([args[0]] is read from an empty slice), and on a token that
    starts with [--cluster-name] without being the flag or an assignment to
    it (element 1 of a one-element [SplitAfterN] result is read), in a
    cluster command as well as in [ping] and [version]. *)
Theorem Execute_panics (P : Platform) (allow auth : bool) (cn ch : string) (w : World) :
  Execute P (NewDefaultExecutor "" allow cn ch auth) w = (Panic "index out of range", w)
  /\ Execute P (NewDefaultExecutor "   " allow cn ch auth) w = (Panic "index out of range", w)
  /\ Execute P (NewDefaultExecutor "get pods --cluster-namefoo" true cn ch auth) w
     = (Panic "index out of range", w)
  /\ Execute P (NewDefaultExecutor "ping --cluster-namefoo" allow cn ch auth) w
     = (Panic "index out of range", w).
Proof. repeat split; reflexivity. Qed.

(** Where the executor does not panic: every token of the message that
    starts with [--cluster-name] is the flag itself or contains
    [--cluster-name=]. *)
Lemma loop_result_cases (cn : string) (args : list string) :
  forall (isClusterNameArg auth : bool) (fin : list string),
  Forall (fun t => is_cluster_token t = true ->
                   t = ClusterFlag
                   \/ exists v, index_result (SplitAfterN t (ClusterFlag +++ "=") 2) 1 = Ok v)
         args ->
  exists exit, runKubectlCommand_loop cn args isClusterNameArg auth fin = Ok exit.
Proof.
  induction args as [|a args IH]; intros icn auth fin Hall.
  - eexists; reflexivity.
  - inversion Hall as [|? ? Ha Hargs]; subst.
    cbn [runKubectlCommand_loop].
    destruct icn; [now apply IH|].
    destruct (String.eqb a AbbrFollowFlag || HasPrefix a FollowFlag); [now apply IH|].
    destruct (String.eqb a AbbrWatchFlag || HasPrefix a WatchFlag); [now apply IH|].
    destruct (HasPrefix a ClusterFlag) eqn:Hc; [|now apply IH].
    destruct (String.eqb_spec a ClusterFlag) as [->|Hne].
    + destruct args as [|next args']; [eexists; reflexivity|].
      destruct (negb (String.eqb (trimQuotes next) cn)); [eexists; reflexivity|].
      now apply IH.
    + destruct (Ha Hc) as [E | [v Hv]]; [contradiction|].
      rewrite Hv.
      destruct (negb (String.eqb (trimQuotes v) cn)); [eexists; reflexivity|].
      now apply IH.
Qed.

(** A cluster command whose tokens are all well formed is answered. *)
Lemma Execute_kubectl_answers (P : Platform) (e : DefaultExecutor) (w : World)
    (verb : string) (toks : list string) :
  Fields (Message e) = verb :: toks ->
  validKubectlCommands verb = true ->
  Forall (fun t => is_cluster_token t = true ->
                   t = ClusterFlag
                   \/ exists v, index_result (SplitAfterN t (ClusterFlag +++ "=") 2) 1 = Ok v)
         toks ->
  exists text w', Execute P e w = (Ok text, w').
Proof.
  intros Hf Hv Htoks.
  destruct (AllowKubectl e) eqn:Ha.
  - rewrite (Execute_kubectl P e w _ _ Hf Hv Ha).
    destruct (loop_result_cases (ClusterName e) (["-n"; "default"; verb] ++ toks)
                                false (IsAuthChannel e) []) as [exit Hexit].
    { apply Forall_app. split; [|exact Htoks].
      pose proof (cluster_free_head verb Hv) as Hhead.
      eapply Forall_impl; [|exact Hhead].
      intros t Ht Hc. cbn beta in Ht. congruence. }
    rewrite Hexit. destruct exit as [text|fa a]; [now eauto|].
    destruct (Bool.eqb a false); eauto.
  - rewrite (Execute_disabled P e w verb toks Hf Hv Ha). eauto.
Qed.

(** ** Streaming and watch flags *)

(** The arguments the loop hands over hold no token equal to [-f] or [-w]
    and none that starts with [--follow] or [--watch]. *)
Lemma loop_keeps_no_stream_flag (cn : string) (args : list string) :
  forall (isClusterNameArg auth auth' : bool) (fin finalArgs : list string),
  Forall (fun t => is_stream_flag t = false) fin ->
  runKubectlCommand_loop cn args isClusterNameArg auth fin = Ok (Finished finalArgs auth') ->
  Forall (fun t => is_stream_flag t = false) finalArgs.
Proof.
  induction args as [|a args IH]; intros icn auth auth' fin fa Hfin Hrun.
  - cbn in Hrun. now inversion Hrun; subst.
  - cbn [runKubectlCommand_loop] in Hrun.
    destruct icn; [now eapply IH; eauto|].
    destruct (String.eqb a AbbrFollowFlag || HasPrefix a FollowFlag) eqn:E1;
      [now eapply IH; eauto|].
    destruct (String.eqb a AbbrWatchFlag || HasPrefix a WatchFlag) eqn:E2;
      [now eapply IH; eauto|].
    destruct (HasPrefix a ClusterFlag).
    + destruct (String.eqb a ClusterFlag).
      * destruct args as [|next args']; [discriminate|].
        destruct (negb (String.eqb (trimQuotes next) cn)); [discriminate|].
        eapply IH; eauto.
      * destruct (index_result (SplitAfterN a (ClusterFlag +++ "=") 2) 1) as [v|];
          [|discriminate].
        destruct (negb (String.eqb (trimQuotes v) cn)); [discriminate|].
        eapply IH; eauto.
    + eapply IH; [|exact Hrun].
      apply Forall_app; split; [exact Hfin|].
      constructor; [|constructor]. unfold is_stream_flag. now rewrite E1, E2.
Qed.

(** Whatever a cluster command hands to the runner holds none of these
    tokens. *)
Lemma Execute_kubectl_forwards (P : Platform) (e : DefaultExecutor) (w : World)
    (verb : string) (toks : list string) :
  Fields (Message e) = verb :: toks ->
  validKubectlCommands verb = true ->
  Invocations (snd (Execute P e w)) = Invocations w
  \/ exists finalArgs,
       Invocations (snd (Execute P e w)) = Invocations w ++ [(kubectlBinary, finalArgs)]
       /\ Forall (fun t => is_stream_flag t = false) finalArgs.
Proof.
  intros Hf Hv.
  destruct (AllowKubectl e) eqn:Ha.
  - rewrite (Execute_kubectl P e w _ _ Hf Hv Ha).
    destruct (runKubectlCommand_loop (ClusterName e) (["-n"; "default"; verb] ++ toks)
                                     false (IsAuthChannel e) []) as [[text|fa a]|msg] eqn:Hrun;
      try (left; reflexivity).
    destruct (Bool.eqb a false); [left; reflexivity|].
    right. exists fa. split; [reflexivity|].
    eapply loop_keeps_no_stream_flag; [|exact Hrun]. constructor.
  - rewrite (Execute_disabled P e w verb toks Hf Hv Ha). left; reflexivity.
Qed.

(** The example of the specification: [-f] is dropped. *)
Example follow_flag_dropped (P : Platform) (ch : string) (auth : bool) (w : World) :
  Execute P (NewDefaultExecutor "logs pod1 -f --cluster-name=prod" true "prod" ch auth) w
  = (Ok (kubectl_response P "prod" ["-n"; "default"; "logs"; "pod1"]),
     log_Invocation kubectlBinary ["-n"; "default"; "logs"; "pod1"] w).
Proof.
  now rewrite (Execute_kubectl P _ w "logs" ["pod1"; "-f"; "--cluster-name=prod"]).
Qed.

(** C5. The short forms with a value are forwarded: [-f=true] and [-w=true]
    reach the runner, which then streams. *)
Theorem short_flag_with_value_forwarded (P : Platform) (ch : string) (auth : bool)
    (w : World) :
  Execute P (NewDefaultExecutor "logs pod1 -f=true --cluster-name=prod" true "prod" ch auth) w
  = (Ok (kubectl_response P "prod" ["-n"; "default"; "logs"; "pod1"; "-f=true"]),
     log_Invocation kubectlBinary ["-n"; "default"; "logs"; "pod1"; "-f=true"] w)
  /\ Execute P (NewDefaultExecutor "get pods -w=true --cluster-name=prod" true "prod" ch auth) w
     = (Ok (kubectl_response P "prod" ["-n"; "default"; "get"; "pods"; "-w=true"]),
        log_Invocation kubectlBinary ["-n"; "default"; "get"; "pods"; "-w=true"] w).
Proof.
  split.
  - now rewrite (Execute_kubectl P _ w "logs" ["pod1"; "-f=true"; "--cluster-name=prod"]).
  - now rewrite (Execute_kubectl P _ w "get" ["pods"; "-w=true"; "--cluster-name=prod"]).
Qed.

(** ** The image-tag filter *)

Lemma set_Recommendations_same (event : Event) :
  set_Recommendations (Recommendations event) event = event.
Proof. now destruct event. Qed.

Lemma check_image_advice (role : string) (recs : list string) (c : Container) :
  check_image role recs c = recs ++ advice role c.
Proof.
  unfold advice, check_image.
  destruct (Nat.eqb (length (Split (Image c) ":")) 1
            || String.eqb (nth 1 (Split (Image c) ":") EmptyString) "latest");
    [reflexivity | now rewrite app_nil_r].
Qed.

Lemma fold_check_image (role : string) (cs : list Container) :
  forall recs, fold_left (check_image role) cs recs = recs ++ flat_map (advice role) cs.
Proof.
  induction cs as [|c cs IH]; intros recs; cbn [fold_left flat_map].
  - now rewrite app_nil_r.
  - now rewrite IH, check_image_advice, <- app_assoc.
Qed.

(** Each container gets at most one recommendation. *)
Lemma advice_at_most_one (role : string) (c : Container) : length (advice role c) <= 1.
Proof.
  unfold advice, check_image.
  destruct (Nat.eqb (length (Split (Image c) ":")) 1
            || String.eqb (nth 1 (Split (Image c) ":") EmptyString) "latest");
    cbn; lia.
Qed.

(** The filter only appends to [Recommendations], first for the init
    containers, then for the containers, in their order. *)
Lemma ImageTagChecker_Run_appends (pod : Pod) (event : Event) :
  Kind event = "Pod" -> Type_ event = CreateEvent ->
  ImageTagChecker_Run (PodObject pod) event
  = set_Recommendations
      (Recommendations event
       ++ flat_map (advice "initContainer") (InitContainers (Spec pod))
       ++ flat_map (advice "Container") (Containers (Spec pod)))
      event.
Proof.
  intros Hk Ht. unfold ImageTagChecker_Run. rewrite Hk, Ht. cbn [String.eqb negb orb].
  change (String.eqb "Pod" "Pod") with true.
  change (String.eqb CreateEvent CreateEvent) with true. cbn [negb orb].
  now rewrite !fold_check_image, <- app_assoc.
Qed.

(** On an event that is not the creation of a Pod, or an object that is not
    a pod, the filter does nothing. *)
Lemma ImageTagChecker_Run_noop (object : Object) (event : Event) :
  Kind event <> "Pod" \/ Type_ event <> CreateEvent
  \/ (forall pod, object <> PodObject pod) ->
  ImageTagChecker_Run object event = event.
Proof.
  intros H. unfold ImageTagChecker_Run.
  destruct (String.eqb_spec (Kind event) "Pod") as [Hk|Hk]; [|reflexivity].
  destruct (String.eqb_spec (Type_ event) CreateEvent) as [Ht|Ht]; [|reflexivity].
  cbn [negb orb]. destruct object as [pod|kind]; [|reflexivity].
  destruct H as [H | [H | H]]; try contradiction. now destruct (H pod).
Qed.

(** The example of the specification: of [nginx], [nginx:1.14] and
    [nginx:latest], the first and the last get a recommendation. *)
Example three_containers (title name ns reason action cluster channel : string)
    (msgs recs warns : list string) (ts : Z) (lvl : Level) :
  ImageTagChecker_Run
    (PodObject (mkPod (mkPodSpec [] [mkContainer "a" "nginx"; mkContainer "b" "nginx:1.14";
                                     mkContainer "c" "nginx:latest"])))
    (mkEvent title "Pod" name ns reason action cluster channel CreateEvent msgs recs warns
             ts lvl)
  = mkEvent title "Pod" name ns reason action cluster channel CreateEvent msgs
      (recs ++ [":latest tag used in image 'nginx' of Container 'a' should be avoided." +++ LF;
                ":latest tag used in image 'nginx:latest' of Container 'c' should be avoided."
                +++ LF])
      warns ts lvl.
Proof.
  rewrite ImageTagChecker_Run_appends by reflexivity. reflexivity.
Qed.

(** C6. An image reference that names a registry with a port is read at the
    wrong colon: [localhost:5000/nginx:latest], whose tag is [latest], and
    [localhost:5000/nginx], which has no tag, get no recommendation; the
    event comes back as it was. *)
Theorem registry_port_hides_tag (title name ns reason action cluster channel : string)
    (msgs recs warns : list string) (ts : Z) (lvl : Level) :
  let event := mkEvent title "Pod" name ns reason action cluster channel CreateEvent
                       msgs recs warns ts lvl in
  ImageTagChecker_Run
    (PodObject (mkPod (mkPodSpec [] [mkContainer "web" "localhost:5000/nginx:latest"]))) event
  = event
  /\ ImageTagChecker_Run
       (PodObject (mkPod (mkPodSpec [mkContainer "init" "localhost:5000/nginx"] []))) event
     = event.
Proof.
  split; reflexivity.
Qed.

(** ** The tab writer on a table *)

Lemma append_nil_r (s : string) : s +++ EmptyString = s.
Proof. induction s as [|c s IH]; cbn; [reflexivity | now rewrite IH]. Qed.

Lemma append_assoc (a b c : string) : (a +++ b) +++ c = a +++ b +++ c.
Proof. induction a as [|x a IH]; cbn; [reflexivity | now rewrite IH]. Qed.

Lemma concat_cons (x : string) (xs : list string) :
  String.concat EmptyString (x :: xs) = x +++ String.concat EmptyString xs.
Proof. destruct xs; cbn; [now rewrite append_nil_r | reflexivity]. Qed.

Lemma free_of_app (sep : ascii) (x y : string) :
  free_of sep (x +++ y) = free_of sep x && free_of sep y.
Proof.
  induction x as [|c x IH]; cbn; [reflexivity|].
  now rewrite IH, andb_assoc.
Qed.

Section Cutting.

Import TabWriter.

Variable sep : ascii.

Lemma cut_at_free (x : string) :
  forall cur, free_of sep x = true -> cut_at sep cur x = [cur +++ x].
Proof.
  induction x as [|c x IH]; intros cur H; cbn [cut_at].
  - now rewrite append_nil_r.
  - cbn [free_of] in H. apply andb_true_iff in H as [Hc Hx].
    apply negb_true_iff in Hc. rewrite Hc, (IH _ Hx), append_assoc. reflexivity.
Qed.

Lemma cut_at_sep (x rest : string) :
  forall cur, free_of sep x = true ->
  cut_at sep cur (x +++ String sep rest) = (cur +++ x) :: cut_at sep EmptyString rest.
Proof.
  induction x as [|c x IH]; intros cur H; cbn [cut_at String.append].
  - now rewrite Ascii.eqb_refl, append_nil_r.
  - cbn [free_of] in H. apply andb_true_iff in H as [Hc Hx].
    apply negb_true_iff in Hc. rewrite Hc, (IH _ Hx), append_assoc. reflexivity.
Qed.

(** Lines that end with the separator, one after the other. *)
Lemma cut_at_lines (rows : list string) :
  Forall (fun r => free_of sep r = true) rows ->
  cut_at sep EmptyString
         (String.concat EmptyString (map (fun r => r +++ String sep EmptyString) rows))
  = rows ++ [EmptyString].
Proof.
  induction 1 as [|r rows Hr _ IH]; [reflexivity|].
  cbn [map]. rewrite concat_cons, append_assoc. cbn [String.append].
  rewrite (cut_at_sep _ _ _ Hr), IH. reflexivity.
Qed.

End Cutting.

Section Table.

Import TabWriter.

Lemma close_last_table (lines : list (list string)) :
  close_last (lines ++ [[EmptyString]]) = lines ++ [[]].
Proof.
  induction lines as [|l lines IH]; [reflexivity|].
  cbn [app close_last]. rewrite IH.
  destruct lines; reflexivity.
Qed.

Variables (inner : list (list string) -> list string) (write : list string -> string)
          (has_cell : list string -> bool).

Lemma scan_blocks_block (lines : list (list string)) :
  forall rest block,
  Forall (fun l => has_cell l = true) lines ->
  scan_blocks inner write has_cell (lines ++ rest) block
  = scan_blocks inner write has_cell rest (block ++ lines).
Proof.
  induction lines as [|l lines IH]; intros rest block H.
  - now rewrite app_nil_r.
  - inversion H as [|? ? Hl Hls]; subst. cbn [app scan_blocks].
    rewrite Hl, (IH _ _ Hls), <- app_assoc. reflexivity.
Qed.

Lemma scan_blocks_loose (lines : list (list string)) :
  inner [] = [] ->
  Forall (fun l => has_cell l = false) lines ->
  scan_blocks inner write has_cell lines [] = map write lines.
Proof.
  intros Hi. induction 1 as [|l lines Hl _ IH]; cbn [scan_blocks map].
  - exact Hi.
  - now rewrite Hl, Hi, IH.
Qed.

End Table.

Section FormatTable.

Import TabWriter.

Variables (minwidth padding : nat).

Lemma format_S (fuel : nat) (widths : list nat) (lines : list (list string)) :
  format (S fuel) minwidth padding widths lines
  = scan_blocks
      (fun block =>
         match block with
         | [] => []
         | _ => format fuel minwidth padding
                       (widths ++ [block_width minwidth padding (length widths) block]) block
         end)
      (write_cells widths)
      (fun line => Nat.ltb (length widths) (length line - 1))
      lines [].
Proof. reflexivity. Qed.

Lemma format_block (fuel : nat) (widths : list nat) (rows : list (list string)) :
  rows <> [] ->
  Forall (fun l => Nat.ltb (length widths) (length l - 1) = true) rows ->
  format (S fuel) minwidth padding widths rows
  = format fuel minwidth padding
           (widths ++ [block_width minwidth padding (length widths) rows]) rows.
Proof.
  intros Hne Hcell. rewrite format_S.
  rewrite <- (app_nil_r rows) at 1.
  rewrite (scan_blocks_block _ _ _ rows [] [] Hcell).
  cbn [scan_blocks app]. destruct rows; [contradiction | reflexivity].
Qed.

(** A table whose rows all have two cells in columns and a trailing cell,
    followed by the empty last line. *)
Lemma format_table (rows : list (list string)) (fuel : nat) :
  rows <> [] ->
  Forall (fun l => length l = 3) rows ->
  format (S (S (S (S fuel)))) minwidth padding [] (rows ++ [[]])
  = map (write_cells [block_width minwidth padding 0 rows;
                      block_width minwidth padding 1 rows]) rows
    ++ [EmptyString].
Proof.
  intros Hne H3.
  assert (Hcell : forall widths : list nat, length widths < 2 ->
            Forall (fun l : list string => Nat.ltb (length widths) (length l - 1) = true) rows).
  { intros widths Hc. eapply Forall_impl; [|exact H3].
    intros l Hl. cbn beta. rewrite Hl. apply Nat.ltb_lt. cbn. lia. }
  rewrite format_S.
  rewrite (scan_blocks_block _ _ _ rows [[]] [] (Hcell [] ltac:(cbn; lia))).
  cbn [scan_blocks app]. change (Nat.ltb (length (@nil nat)) (length (@nil string) - 1)) with false.
  cbn iota. f_equal.
  destruct rows as [|r rows']; [contradiction|].
  set (rows := r :: rows') in *.
  rewrite (format_block _ _ _ Hne (Hcell [_] ltac:(cbn; lia))).
  rewrite format_S. cbn [app length].
  apply scan_blocks_loose; [reflexivity|].
  eapply Forall_impl; [|exact H3]. intros l Hl. cbn beta. now rewrite Hl.
Qed.

End FormatTable.

(** ** The filter listing *)

Lemma plain_free (s : string) :
  plain s = true ->
  free_of (ascii_of_nat 9) s = true /\ free_of (ascii_of_nat 10) s = true.
Proof.
  unfold plain. intros H.
  repeat (apply andb_true_iff in H; destruct H as [H ?]). now split.
Qed.

Lemma plain_FormatBool (b : bool) : plain (FormatBool b) = true.
Proof. now destruct b. Qed.

Lemma table_rows_plain (visit : list (Filter * bool)) :
  Forall plain_filter visit -> Forall plain_row (table_rows visit).
Proof.
  intros H. constructor; [repeat split; reflexivity|].
  apply Forall_map. eapply Forall_impl; [|exact H].
  intros [f b] [Hn Hd]. cbn in *. repeat split; try assumption. apply plain_FormatBool.
Qed.

Lemma filters_table_rows (visit : list (Filter * bool)) :
  filters_table visit
  = String.concat EmptyString
      (map (fun r => r +++ String (ascii_of_nat 10) EmptyString)
           (map row_text (table_rows visit))).
Proof.
  unfold filters_table, table_rows. cbn [map]. rewrite concat_cons. f_equal.
  induction visit as [|[f b] visit IH]; [reflexivity|].
  cbn [map]. rewrite !concat_cons, IH. f_equal.
  cbn [fst snd row_text]. rewrite !append_assoc. reflexivity.
Qed.

Lemma row_text_cells (r : string * string * string) :
  plain_row r ->
  free_of (ascii_of_nat 10) (row_text r) = true
  /\ TabWriter.cut_at (ascii_of_nat 9) EmptyString (row_text r) = row_cells r.
Proof.
  destruct r as [[a b] d]. intros (Ha & Hb & Hd).
  apply plain_free in Ha as [Ha9 Ha10], Hb as [Hb9 Hb10], Hd as [Hd9 Hd10].
  cbn [row_text row_cells]. split.
  - rewrite !free_of_app, Ha10, Hb10, Hd10. reflexivity.
  - unfold TAB. cbn [String.append].
    rewrite (cut_at_sep _ _ _ _ Ha9), (cut_at_sep _ _ _ _ Hb9), (cut_at_free _ _ _ Hd9).
    reflexivity.
Qed.

(** The lines of cells the writer buffers for the listing. *)
Lemma buffered_filters_table (visit : list (Filter * bool)) :
  Forall plain_filter visit ->
  TabWriter.buffered (filters_table visit) = map row_cells (table_rows visit) ++ [[]].
Proof.
  intros H. apply table_rows_plain in H.
  unfold TabWriter.buffered. rewrite filters_table_rows.
  rewrite cut_at_lines.
  - rewrite map_app, map_map. cbn [map]. change (TabWriter.cut_at _ _ EmptyString) with [EmptyString].
    rewrite <- close_last_table. f_equal. f_equal.
    apply map_ext_in. intros r Hr.
    rewrite Forall_forall in H. now apply row_text_cells, H.
  - apply Forall_map. eapply Forall_impl; [|exact H].
    intros r Hr. now apply row_text_cells.
Qed.

Lemma row_cells_length (rows : list (string * string * string)) :
  Forall (fun l => length l = 3) (map row_cells rows).
Proof.
  apply Forall_map, Forall_forall. now intros [[a b] d] _.
Qed.

Lemma table_fuel (rows : list (list string)) :
  Forall (fun l => length l = 3) rows -> rows <> [] ->
  fold_right Nat.max 0 (map (@length string) (rows ++ [[]])) = 3.
Proof.
  intros H Hne.
  assert (G : fold_right Nat.max 0 (map (@length string) (rows ++ [[]]))
              = match rows with [] => 0 | _ => 3 end).
  { clear Hne. induction H as [|l rows Hl _ IH]; [reflexivity|].
    cbn [app map fold_right]. rewrite IH, Hl. now destruct rows. }
  rewrite G. now destruct rows.
Qed.

Lemma concat_lines (rendered : list string) :
  String.concat LF (rendered ++ [EmptyString])
  = String.concat EmptyString (map (fun r => r +++ LF) rendered).
Proof.
  induction rendered as [|r rendered IH]; [reflexivity|].
  cbn [map]. rewrite concat_cons, <- IH, append_assoc.
  cbn [app String.concat]. now destruct rendered.
Qed.

Lemma name_column_block (visit : list (Filter * bool)) :
  TabWriter.block_width 5 1 0 (map row_cells (table_rows visit)) = name_column visit.
Proof.
  unfold TabWriter.block_width, name_column, table_rows. cbn [map fold_left row_cells nth].
  change (Nat.max 5 (TabWriter.RuneCount "FILTER" + 1)) with 7.
  generalize 7. induction visit as [|[f b] visit IH]; intros n; [reflexivity|].
  cbn [map fold_left row_cells nth fst snd]. apply IH.
Qed.

Lemma enabled_column_block (visit : list (Filter * bool)) :
  TabWriter.block_width 5 1 1 (map row_cells (table_rows visit)) = 8.
Proof.
  unfold TabWriter.block_width, table_rows. cbn [map fold_left row_cells nth].
  change (Nat.max 5 (TabWriter.RuneCount "ENABLED" + 1)) with 8.
  induction visit as [|[f b] visit IH]; [reflexivity|].
  cbn [map fold_left row_cells nth fst snd].
  replace (Nat.max 8 (TabWriter.RuneCount (FormatBool b) + 1)) with 8
    by (now destruct b).
  exact IH.
Qed.

Lemma makeFiltersList_text (visit : list (Filter * bool)) :
  Forall plain_filter visit ->
  makeFiltersList visit
  = listing_row (name_column visit) "FILTER" "ENABLED" "DESCRIPTION"
    +++ String.concat EmptyString (listing_rows (name_column visit) visit).
Proof.
  intros H. unfold makeFiltersList, TabWriter.Flush. cbv zeta.
  rewrite (buffered_filters_table visit H).
  rewrite table_fuel by (apply row_cells_length || discriminate).
  rewrite format_table by (apply row_cells_length || discriminate).
  rewrite concat_lines, name_column_block, enabled_column_block, !map_map.
  unfold table_rows. cbn [map]. rewrite concat_cons. f_equal.
  unfold listing_rows. rewrite map_map. f_equal. apply map_ext. intros [f b].
  unfold listing_row. cbn [row_cells TabWriter.write_cells fst snd].
  now rewrite append_nil_r.
Qed.

Lemma name_column_perm (visit visit' : list (Filter * bool)) :
  Permutation visit visit' -> name_column visit = name_column visit'.
Proof.
  intros Hp. unfold name_column. generalize 7 as width.
  induction Hp as [|x l l' _ IH|x y l|l l' l'' _ IH1 _ IH2]; intros width.
  - reflexivity.
  - cbn [fold_left]. apply IH.
  - cbn [fold_left]. f_equal. lia.
  - now rewrite IH1.
Qed.

(** C7 (as amended). For every order in which the range over the filter map
    yields the registered filters (names and descriptions being plain text),
    the listing is the header row followed by one row per filter, in that
    order, each showing the name, the enabled state and the description; the
    rows for another order of the same filters are the same rows, permuted. *)
Theorem filters_listing (visit : list (Filter * bool)) :
  Forall plain_filter visit ->
  makeFiltersList visit
  = listing_row (name_column visit) "FILTER" "ENABLED" "DESCRIPTION"
    +++ String.concat EmptyString (listing_rows (name_column visit) visit)
  /\ length (listing_rows (name_column visit) visit) = length visit
  /\ forall visit', Permutation visit visit' ->
       Permutation (listing_rows (name_column visit) visit)
                   (listing_rows (name_column visit') visit').
Proof.
  intros H. split; [now apply makeFiltersList_text|]. split.
  - unfold listing_rows. apply length_map.
  - intros visit' Hp. rewrite <- (name_column_perm visit visit' Hp).
    unfold listing_rows. now apply Permutation_map.
Qed.

(** The [filters list] command answers with the listing, for the order in
    which the range yields the registry. *)
Lemma Execute_filters_list (P : Platform) (e : DefaultExecutor) (w : World)
    (rest : list string) :
  Fields (Message e) = "filters" :: "list" :: rest ->
  IsAuthChannel e = true ->
  Execute P e w = (Ok (makeFiltersList (range_order P (FiltersMap w))), w).
Proof.
  intros Hf Ha. rewrite (Execute_unfold_verb P e w Hf). cbn.
  unfold runFilterCommand. rewrite Ha. reflexivity.
Qed.

Lemma filters_listing_witness :
  makeFiltersList [(filter_Beta, false); (filter_Alpha, true)]
  = ("FILTER ENABLED DESCRIPTION" +++ LF)
    +++ ("Beta   false   second" +++ LF)
    +++ ("Alpha  true    first" +++ LF).
Proof.
  destruct (filters_listing [(filter_Beta, false); (filter_Alpha, true)]) as [H _].
  - repeat constructor.
  - rewrite H. reflexivity.
Defined.

(** The rows follow the order of the range, which is not the order of the
    names and is not the same for every range: with the filters [Alpha] and
    [Beta] registered, a range that yields [Beta] first lists it first, and
    two ranges over the same registry give two different listings. *)
Lemma listing_order_is_range_order :
  Permutation (FiltersMap two_filters_World) (rev (FiltersMap two_filters_World))
  /\ fst (Execute reversed_Platform (NewDefaultExecutor "filters list" true "prod" "general" true)
                  two_filters_World)
     = Ok (("FILTER ENABLED DESCRIPTION" +++ LF)
           +++ ("Beta   false   second" +++ LF)
           +++ ("Alpha  true    first" +++ LF))
  /\ fst (Execute sample_Platform (NewDefaultExecutor "filters list" true "prod" "general" true)
                  two_filters_World)
     <> fst (Execute reversed_Platform
                     (NewDefaultExecutor "filters list" true "prod" "general" true)
                     two_filters_World).
Proof.
  split; [apply Permutation_rev|]. split; [reflexivity | discriminate].
Qed.

(** ** Showing the configuration *)

Lemma redacted_fields (c : config_Config) (tok pwd : string) :
  redacted (set_Password pwd (set_Token tok c)) = redacted c.
Proof. reflexivity. Qed.

Lemma redacted_secrets (c : config_Config) :
  Token (Slack (Communications (redacted c))) = EmptyString
  /\ Password (ElasticSearch (Communications (redacted c))) = EmptyString.
Proof. split; reflexivity. Qed.

Lemma showControllerConfig_stored (P : Platform) (w : World) (c : config_Config) :
  stored_config P w c ->
  showControllerConfig P w = (Ok (rendering P (redacted c)), w).
Proof.
  intros (b & Hread & Hdec). unfold showControllerConfig, rendering, redacted.
  rewrite Hread.
  destruct (Nat.eqb (String.length b) 0); cbn [negb].
  - subst c. now destruct (yaml_Marshal P _).
  - rewrite Hdec. now destruct (yaml_Marshal P _).
Qed.

(** C8 (as amended). Whatever configuration is stored, the handler hands the
    YAML encoder the configuration with the Slack token and the
    ElasticSearch password zeroed, and what it returns does not depend on
    the stored values of these two fields: a stored configuration that
    differs in them only gives the same output. *)
Theorem showconfig_redaction (P : Platform) (w : World) (c : config_Config) :
  stored_config P w c ->
  showControllerConfig P w = (Ok (rendering P (redacted c)), w)
  /\ Token (Slack (Communications (redacted c))) = EmptyString
  /\ Password (ElasticSearch (Communications (redacted c))) = EmptyString
  /\ forall (w' : World) (tok pwd : string),
       stored_config P w' (set_Password pwd (set_Token tok c)) ->
       fst (showControllerConfig P w') = fst (showControllerConfig P w).
Proof.
  intros H. split; [now apply showControllerConfig_stored|].
  split; [reflexivity|]. split; [reflexivity|].
  intros w' tok pwd H'.
  rewrite (showControllerConfig_stored P w' _ H'), (showControllerConfig_stored P w c H).
  cbn [fst]. now rewrite redacted_fields.
Qed.

Lemma shared_text_stored :
  stored_config shared_text_Platform shared_text_World shared_text_config.
Proof. exists shared_text_file. split; reflexivity. Defined.

Lemma showconfig_redaction_witness :
  showControllerConfig shared_text_Platform shared_text_World
  = (Ok (rendering shared_text_Platform (redacted shared_text_config)), shared_text_World).
Proof.
  exact (proj1 (showconfig_redaction shared_text_Platform shared_text_World
                                     shared_text_config shared_text_stored)).
Defined.

(** The text of a secret can be in the output all the same: when the Slack
    channel holds the same text as the Slack token, the output shows that
    text as the channel. *)
Lemma secret_text_in_output :
  stored_config shared_text_Platform shared_text_World shared_text_config
  /\ Token (Slack (Communications shared_text_config)) = "general"
  /\ Password (ElasticSearch (Communications shared_text_config)) = "hunter2"
  /\ exists out : string,
       showControllerConfig shared_text_Platform shared_text_World
       = (Ok (out, None), shared_text_World)
       /\ Contains out (Token (Slack (Communications shared_text_config))) = true.
Proof.
  split; [exact shared_text_stored|]. split; [reflexivity|]. split; [reflexivity|].
  eexists. split; reflexivity.
Qed.

(** * Further properties of the executor *)

(** ** Cluster commands *)

(** X1. On a pre-authorized channel with passthrough enabled, a cluster
    command without any cluster-scope token reaches the runner as
    ["-n" "default"], the verb and the tokens that are not streaming or
    watch flags, and the answer is the runner's. *)
Theorem authorized_channel_passthrough (P : Platform) (e : DefaultExecutor) (w : World)
    (verb : string) (toks : list string) :
  Fields (Message e) = verb :: toks ->
  validKubectlCommands verb = true ->
  AllowKubectl e = true ->
  IsAuthChannel e = true ->
  cluster_free toks ->
  let finalArgs := "-n" :: "default" :: verb :: filter keep toks in
  Execute P e w
  = (Ok (kubectl_response P (ClusterName e) finalArgs),
     log_Invocation kubectlBinary finalArgs w).
Proof.
  intros Hf Hv Ha Hauth Hfree finalArgs.
  rewrite (Execute_kubectl P e w _ _ Hf Hv Ha).
  rewrite loop_finishes.
  - rewrite Hauth, filter_app, (keep_head verb Hv). reflexivity.
  - apply Forall_app. split; [now apply cluster_free_head | exact Hfree].
Qed.

Lemma authorized_channel_passthrough_witness :
  Execute sample_Platform
          (NewDefaultExecutor "get pods -w -n kube-system" true "prod" "general" true)
          sample_World
  = (Ok ("Cluster: prod" +++ LF +++ "ran /usr/local/bin/kubectl"),
     log_Invocation kubectlBinary ["-n"; "default"; "get"; "pods"; "-n"; "kube-system"]
                    sample_World).
Proof.
  apply (authorized_channel_passthrough sample_Platform
           (NewDefaultExecutor "get pods -w -n kube-system" true "prod" "general" true)
           sample_World "get" ["pods"; "-w"; "-n"; "kube-system"]);
    try reflexivity. repeat constructor.
Defined.

(** X2. A cluster command that ends with [--cluster-name], the value
    missing, is answered with the empty string and the runner is not
    invoked, on a pre-authorized channel too. *)
Theorem trailing_cluster_flag_is_silent (P : Platform) (e : DefaultExecutor) (w : World)
    (verb : string) (pre : list string) :
  Fields (Message e) = verb :: pre ++ [ClusterFlag] ->
  validKubectlCommands verb = true ->
  AllowKubectl e = true ->
  cluster_free pre ->
  Execute P e w = (Ok "", w).
Proof.
  intros Hf Hv Ha Hpre.
  rewrite (Execute_kubectl P e w _ _ Hf Hv Ha).
  rewrite (loop_cluster_free _ ["-n"; "default"; verb] _ _ [] (cluster_free_head verb Hv)).
  rewrite (loop_cluster_free _ pre _ _ _ Hpre). reflexivity.
Qed.

Lemma trailing_cluster_flag_is_silent_witness :
  Execute sample_Platform
          (NewDefaultExecutor "get pods --cluster-name" true "prod" "general" true)
          sample_World
  = (Ok "", sample_World).
Proof.
  apply (trailing_cluster_flag_is_silent sample_Platform
           (NewDefaultExecutor "get pods --cluster-name" true "prod" "general" true)
           sample_World "get" ["pods"]); try reflexivity. repeat constructor.
Defined.

(** ** [ping] and [version] *)

Lemma version_loop_cluster_free (cn : string) (pre : list string) :
  forall rest : list string,
  cluster_free pre ->
  runVersionCommand_loop cn (pre ++ rest) false = runVersionCommand_loop cn rest false.
Proof.
  induction pre as [|a pre IH]; intros rest Hfree; [reflexivity|].
  inversion Hfree as [|? ? Ha Hpre]; subst. unfold is_cluster_token in Ha.
  cbn [app runVersionCommand_loop]. rewrite Ha. now apply IH.
Qed.

Lemma version_loop_flag (cn value : string) (flag rest : list string) :
  flag = [ClusterFlag +++ "=" +++ value] \/ flag = [ClusterFlag; value] ->
  runVersionCommand_loop cn (flag ++ rest) false
  = if negb (String.eqb value cn) then Ok (Some "")
    else runVersionCommand_loop cn rest false.
Proof.
  intros [-> | ->]; cbn [app]; [destruct value; reflexivity | reflexivity].
Qed.

Lemma runVersionCommand_unfold (P : Platform) (args : list string) (cn : string) (w : World) :
  runVersionCommand P args cn w
  = match runVersionCommand_loop cn args false with
    | Panic msg => (Panic msg, w)
    | Ok (Some text) => (Ok text, w)
    | Ok None => findBotKubeVersion P w
    end.
Proof.
  unfold runVersionCommand, bind, lift, ret.
  now destruct (runVersionCommand_loop cn args false) as [[text|]|msg].
Qed.

Lemma Execute_version (P : Platform) (e : DefaultExecutor) (w : World) (rest : list string) :
  Fields (Message e) = "version" :: rest ->
  Execute P e w
  = match runVersionCommand_loop (ClusterName e) rest false with
    | Panic msg => (Panic msg, w)
    | Ok (Some text) => (Ok text, w)
    | Ok None => findBotKubeVersion P w
    end.
Proof.
  intros Hf. rewrite (Execute_unfold_verb P e w Hf). route.
  now rewrite runVersionCommand_unfold.
Qed.

Lemma Execute_ping (P : Platform) (e : DefaultExecutor) (w : World) (rest : list string) :
  Fields (Message e) = "ping" :: rest ->
  Execute P e w
  = match (match runVersionCommand_loop (ClusterName e) rest false with
           | Panic msg => (Panic msg, w)
           | Ok (Some text) => (Ok text, w)
           | Ok None => findBotKubeVersion P w
           end) with
    | (Ok res, w') =>
      (Ok (if Nat.eqb (String.length res) 0 then ""
           else Sprintf "pong from cluster '%s'" [ClusterName e] +++ LF +++ LF +++ res), w')
    | (Panic msg, w') => (Panic msg, w')
    end.
Proof.
  intros Hf. rewrite (Execute_unfold_verb P e w Hf). route.
  unfold bind at 1. rewrite runVersionCommand_unfold.
  change (runVersionCommand_loop (ClusterName e) ("ping" :: rest) false)
    with (runVersionCommand_loop (ClusterName e) rest false).
  destruct (match runVersionCommand_loop (ClusterName e) rest false with
            | Panic msg => (Panic msg, w)
            | Ok (Some text) => (Ok text, w)
            | Ok None => findBotKubeVersion P w
            end) as [[res|msg] w']; [|reflexivity].
  unfold ret. now destruct (Nat.eqb (String.length res) 0).
Qed.

(** X3. [ping] and [version] with a cluster-scope flag whose value is not,
    byte for byte, the local cluster identity are answered with the empty
    string and do not invoke the runner; quotes around the value are not
    trimmed here. *)
Theorem version_other_cluster_is_silent (P : Platform) (e : DefaultExecutor) (w : World)
    (verb value : string) (pre flag post : list string) :
  Fields (Message e) = verb :: pre ++ flag ++ post ->
  verb = "ping" \/ verb = "version" ->
  flag = [ClusterFlag +++ "=" +++ value] \/ flag = [ClusterFlag; value] ->
  cluster_free pre ->
  value <> ClusterName e ->
  Execute P e w = (Ok "", w).
Proof.
  intros Hf Hverb Hflag Hpre Hne.
  assert (Hloop : runVersionCommand_loop (ClusterName e) (pre ++ flag ++ post) false
                  = Ok (Some "")).
  { rewrite (version_loop_cluster_free _ _ _ Hpre), (version_loop_flag _ value flag _ Hflag).
    now destruct (String.eqb_spec value (ClusterName e)). }
  destruct Hverb as [-> | ->].
  - now rewrite (Execute_ping P e w _ Hf), Hloop.
  - now rewrite (Execute_version P e w _ Hf), Hloop.
Qed.

Lemma version_other_cluster_is_silent_witness :
  Execute sample_Platform
          (NewDefaultExecutor "ping --cluster-name staging" true "prod" "random" false)
          sample_World = (Ok "", sample_World)
  /\ Execute sample_Platform
             (NewDefaultExecutor "version --cluster-name='prod'" true "prod" "random" false)
             sample_World = (Ok "", sample_World).
Proof.
  split.
  - apply (version_other_cluster_is_silent sample_Platform
             (NewDefaultExecutor "ping --cluster-name staging" true "prod" "random" false)
             sample_World "ping" "staging" [] ["--cluster-name"; "staging"] []);
      try reflexivity; [now left | now right | constructor | discriminate].
  - apply (version_other_cluster_is_silent sample_Platform
             (NewDefaultExecutor "version --cluster-name='prod'" true "prod" "random" false)
             sample_World "version" "'prod'" [] ["--cluster-name='prod'"] []);
      try reflexivity; [now right | now left | constructor | discriminate].
Defined.

(** X4. [ping] answers what [version] answers for the same tokens, behind
    the pong line: it is silent when [version] is silent, panics when
    [version] panics, and leaves the same world. *)
Theorem ping_is_version_with_pong (P : Platform) (e1 e2 : DefaultExecutor) (w : World)
    (rest : list string) :
  Fields (Message e1) = "ping" :: rest ->
  Fields (Message e2) = "version" :: rest ->
  ClusterName e1 = ClusterName e2 ->
  Execute P e1 w
  = match Execute P e2 w with
    | (Ok res, w') =>
      (Ok (if Nat.eqb (String.length res) 0 then ""
           else Sprintf "pong from cluster '%s'" [ClusterName e1] +++ LF +++ LF +++ res), w')
    | (Panic msg, w') => (Panic msg, w')
    end.
Proof.
  intros H1 H2 Hcn.
  now rewrite (Execute_ping P e1 w _ H1), (Execute_version P e2 w _ H2), Hcn.
Qed.

Lemma ping_is_version_with_pong_witness :
  Execute sample_Platform (NewDefaultExecutor "ping" true "prod" "random" false) sample_World
  = (Ok ("pong from cluster 'prod'" +++ LF +++ LF +++ "K8s ran shBotKube version: Unknown"),
     log_Invocation "sh" version_args sample_World).
Proof.
  rewrite (ping_is_version_with_pong sample_Platform
             (NewDefaultExecutor "ping" true "prod" "random" false)
             (NewDefaultExecutor "version" true "prod" "random" false)
             sample_World []); reflexivity.
Defined.

(** X5. [ping] and [version] do not consult the authorization: the answer
    and the world are the same whether or not passthrough is enabled and
    whether or not the channel is pre-authorized. *)
Theorem version_ignores_authorization (P : Platform) (e1 e2 : DefaultExecutor) (w : World)
    (verb : string) (rest : list string) :
  Fields (Message e1) = verb :: rest ->
  verb = "ping" \/ verb = "version" ->
  Message e2 = Message e1 ->
  ClusterName e2 = ClusterName e1 ->
  Execute P e2 w = Execute P e1 w.
Proof.
  intros Hf Hverb Hm Hcn.
  assert (Hf2 : Fields (Message e2) = verb :: rest) by now rewrite Hm.
  rewrite (Execute_unfold_verb P e1 w Hf), (Execute_unfold_verb P e2 w Hf2), Hcn.
  destruct Hverb as [-> | ->]; reflexivity.
Qed.

Lemma version_ignores_authorization_witness :
  Execute sample_Platform (NewDefaultExecutor "version" false "prod" "random" false)
          sample_World
  = Execute sample_Platform (NewDefaultExecutor "version" true "prod" "general" true)
            sample_World.
Proof.
  apply (version_ignores_authorization sample_Platform
           (NewDefaultExecutor "version" true "prod" "general" true)
           (NewDefaultExecutor "version" false "prod" "random" false)
           sample_World "version" []); try reflexivity. now right.
Defined.

(** X6. When the runner fails and [BOTKUBE_VERSION] is not set, [version]
    still answers, with both versions reported as unknown; [sh] was invoked
    once. *)
Theorem version_unknown (P : Platform) (e : DefaultExecutor) (w : World)
    (toks : list string) (out err : string) :
  Fields (Message e) = "version" :: toks ->
  cluster_free toks ->
  runner_Run P "sh" version_args = (out, Some err) ->
  Getenv w "BOTKUBE_VERSION" = "" ->
  Execute P e w
  = (Ok ("K8s Server Version: Unknown" +++ LF +++ "BotKube version: Unknown"),
     log_Invocation "sh" version_args w).
Proof.
  intros Hf Hfree Hrun Henv.
  rewrite (Execute_version P e w _ Hf).
  rewrite <- (app_nil_r toks), (version_loop_cluster_free _ _ _ Hfree).
  cbn [runVersionCommand_loop].
  unfold findBotKubeVersion, bind, Run_command. fold version_args.
  rewrite Hrun. cbn [Getenv log_Invocation]. rewrite Henv. reflexivity.
Qed.

Lemma version_unknown_witness :
  Execute (mkPlatform (fun _ _ => ("", Some "exit status 1")) (fun m => m)
                      (NotFoundError sample_Platform) "config.yaml"
                      (filepath_Join sample_Platform) (fun _ c => inl c) sample_Marshal)
          (NewDefaultExecutor "version" true "prod" "random" false) sample_World
  = (Ok ("K8s Server Version: Unknown" +++ LF +++ "BotKube version: Unknown"),
     log_Invocation "sh" version_args sample_World).
Proof.
  apply (version_unknown _ (NewDefaultExecutor "version" true "prod" "random" false)
                         sample_World [] "" "exit status 1");
    try reflexivity. constructor.
Defined.

(** ** The notifier and filter commands *)

Lemma Execute_notifier (P : Platform) (e : DefaultExecutor) (w : World) (rest : list string) :
  Fields (Message e) = "notifier" :: rest ->
  Execute P e w = runNotifierCommand P ("notifier" :: rest) (ClusterName e) (IsAuthChannel e) w.
Proof. intros Hf. rewrite (Execute_unfold_verb P e w Hf). now route. Qed.

Lemma Execute_filters (P : Platform) (e : DefaultExecutor) (w : World) (rest : list string) :
  Fields (Message e) = "filters" :: rest ->
  Execute P e w = runFilterCommand P ("filters" :: rest) (ClusterName e) (IsAuthChannel e) w.
Proof. intros Hf. rewrite (Execute_unfold_verb P e w Hf). now route. Qed.

(** X7. On a pre-authorized channel [notifier start] and [notifier stop]
    set the notifier flag, and nothing else of the world, and a
    [notifier status] that follows reports the flag they set. *)
Theorem notifier_toggle_then_status (P : Platform) (e1 e2 : DefaultExecutor) (w : World)
    (action : string) (rest1 rest2 : list string) :
  Fields (Message e1) = "notifier" :: action :: rest1 ->
  action = Start \/ action = Stop ->
  IsAuthChannel e1 = true ->
  Fields (Message e2) = "notifier" :: Status :: rest2 ->
  IsAuthChannel e2 = true ->
  let w1 := set_Notify (String.eqb action Start) w in
  Execute P e1 w
  = (Ok (Sprintf (if String.eqb action Start then notifierStartMsg else notifierStopMsg)
                 [ClusterName e1]), w1)
  /\ Execute P e2 w1
     = (Ok (Sprintf (if String.eqb action Start
                     then "Notifications are on for cluster '%s'"
                     else "Notifications are off for cluster '%s'")
                    [ClusterName e2]), w1).
Proof.
  intros H1 Hact Ha1 H2 Ha2 w1. subst w1.
  rewrite (Execute_notifier P e1 w _ H1), (Execute_notifier P e2 _ _ H2).
  unfold runNotifierCommand. rewrite Ha1, Ha2.
  destruct Hact as [-> | ->]; split; reflexivity.
Qed.

Lemma notifier_toggle_then_status_witness :
  Execute sample_Platform (NewDefaultExecutor "notifier stop" true "prod" "general" true)
          sample_World
  = (Ok "Sure! I won't send you notifications from cluster 'prod' anymore.",
     set_Notify false sample_World)
  /\ Execute sample_Platform (NewDefaultExecutor "notifier status" true "prod" "general" true)
             (set_Notify false sample_World)
     = (Ok "Notifications are off for cluster 'prod'", set_Notify false sample_World).
Proof.
  apply (notifier_toggle_then_status sample_Platform
           (NewDefaultExecutor "notifier stop" true "prod" "general" true)
           (NewDefaultExecutor "notifier status" true "prod" "general" true)
           sample_World "stop" [] []); try reflexivity. now right.
Defined.

(** X8. On a pre-authorized channel, [notifier] or [filters] without a
    sub-command is answered with the incomplete-command message, and with a
    sub-command that is not one of theirs with the unsupported-command
    message; the world is left as it was. *)
Theorem admin_command_usage (P : Platform) (e : DefaultExecutor) (w : World)
    (verb : string) (rest : list string) :
  Fields (Message e) = verb :: rest ->
  verb = "notifier" \/ verb = "filters" ->
  IsAuthChannel e = true ->
  (rest = [] -> Execute P e w = (Ok incompleteCmdMsg, w))
  /\ (forall action rest',
        rest = action :: rest' -> known_action verb action = false ->
        Execute P e w = (Ok unsupportedCmdMsg, w)).
Proof.
  intros Hf Hverb Ha. split.
  - intros ->. destruct Hverb as [-> | ->].
    + rewrite (Execute_notifier P e w _ Hf). unfold runNotifierCommand. now rewrite Ha.
    + rewrite (Execute_filters P e w _ Hf). unfold runFilterCommand. now rewrite Ha.
  - intros action rest' -> Hknown. destruct Hverb as [-> | ->];
      unfold known_action in Hknown; cbn [String.eqb Ascii.eqb Bool.eqb existsb] in Hknown;
      repeat (apply orb_false_iff in Hknown; destruct Hknown as [? Hknown]).
    + rewrite (Execute_notifier P e w _ Hf). unfold runNotifierCommand. rewrite Ha.
      cbn [Bool.eqb length Nat.ltb Nat.leb]. unfold bind, index, lift, index_result.
      cbn [nth_error].
      repeat match goal with H : String.eqb action _ = false |- _ => rewrite H; clear H end.
      reflexivity.
    + rewrite (Execute_filters P e w _ Hf). unfold runFilterCommand. rewrite Ha.
      cbn [Bool.eqb length Nat.ltb Nat.leb]. unfold bind, index, lift, index_result.
      cbn [nth_error].
      repeat match goal with H : String.eqb action _ = false |- _ => rewrite H; clear H end.
      reflexivity.
Qed.

Lemma admin_command_usage_witness :
  Execute sample_Platform (NewDefaultExecutor "filters" true "prod" "general" true)
          sample_World
  = (Ok incompleteCmdMsg, sample_World)
  /\ Execute sample_Platform (NewDefaultExecutor "notifier pause" true "prod" "general" true)
             sample_World
     = (Ok unsupportedCmdMsg, sample_World).
Proof.
  split.
  - apply (admin_command_usage sample_Platform
             (NewDefaultExecutor "filters" true "prod" "general" true) sample_World
             "filters" []); try reflexivity. now right.
  - apply (admin_command_usage sample_Platform
             (NewDefaultExecutor "notifier pause" true "prod" "general" true) sample_World
             "notifier" ["pause"]) with (action := "pause") (rest' := []);
      try reflexivity. now left.
Defined.

(** X9. [filters enable] and [filters disable] without a filter name are
    answered with the missing-name message, which carries the listing of the
    filters; the registry is not changed. *)
Theorem filter_name_missing (P : Platform) (e : DefaultExecutor) (w : World)
    (action : string) :
  Fields (Message e) = ["filters"; action] ->
  action = FilterEnable \/ action = FilterDisable ->
  IsAuthChannel e = true ->
  Execute P e w
  = (Ok (Sprintf filterNameMissing [makeFiltersList (range_order P (FiltersMap w))]), w).
Proof.
  intros Hf Hact Ha.
  rewrite (Execute_filters P e w _ Hf). unfold runFilterCommand. rewrite Ha.
  destruct Hact as [-> | ->]; reflexivity.
Qed.

Lemma filter_name_missing_witness :
  Execute sample_Platform (NewDefaultExecutor "filters disable" true "prod" "general" true)
          sample_World
  = (Ok (Sprintf filterNameMissing [makeFiltersList (FiltersMap sample_World)]), sample_World).
Proof.
  apply (filter_name_missing sample_Platform
           (NewDefaultExecutor "filters disable" true "prod" "general" true) sample_World
           "disable"); try reflexivity. now right.
Defined.

(** ** What a call does to the world *)

Lemma showControllerConfig_world (P : Platform) (w : World) :
  exists r, showControllerConfig P w = (Ok r, w).
Proof.
  unfold showControllerConfig.
  destruct (ReadFile w _) as [b|err]; [|eauto].
  destruct (if negb (Nat.eqb (String.length b) 0) then yaml_Unmarshal P b zero_Config
            else inl zero_Config) as [c|err]; [|eauto].
  destruct (yaml_Marshal P _); eauto.
Qed.

Lemma findBotKubeVersion_world (P : Platform) (w : World) :
  exists text, findBotKubeVersion P w = (Ok text, log_Invocation "sh" version_args w).
Proof.
  unfold findBotKubeVersion, bind, Run_command. fold version_args.
  destruct (runner_Run P "sh" version_args) as [out [err|]]; eauto.
Qed.

Lemma runVersionCommand_step (P : Platform) (e : DefaultExecutor) (args : list string)
    (cn : string) (w : World) :
  exists r w', runVersionCommand P args cn w = (r, w') /\ world_step e w w'.
Proof.
  rewrite runVersionCommand_unfold.
  destruct (runVersionCommand_loop cn args false) as [[text|]|msg].
  - do 2 eexists. split; [reflexivity | constructor].
  - destruct (findBotKubeVersion_world P w) as [text ->].
    do 2 eexists. split; [reflexivity | constructor].
  - do 2 eexists. split; [reflexivity | constructor].
Qed.

Lemma runNotifierCommand_step (P : Platform) (e : DefaultExecutor) (args : list string)
    (w : World) :
  world_step e w (snd (runNotifierCommand P args (ClusterName e) (IsAuthChannel e) w)).
Proof.
  unfold runNotifierCommand. destruct (IsAuthChannel e) eqn:Ha; [|constructor].
  cbn [Bool.eqb]. destruct (Nat.ltb (length args) 2); [constructor|].
  unfold bind, index, lift, index_result.
  destruct (nth_error args 1) as [action|]; [|constructor].
  destruct (String.eqb action Start); [now apply step_notify|].
  destruct (String.eqb action Stop); [now apply step_notify|].
  destruct (String.eqb action Status); [constructor|].
  destruct (String.eqb action ShowConfig); [|constructor].
  destruct (showControllerConfig_world P w) as [[out [err|]] ->]; constructor.
Qed.

Lemma DefaultFilterEngine_SetFilter_step (P : Platform) (e : DefaultExecutor)
    (name : string) (flag : bool) (w : World) :
  IsAuthChannel e = true ->
  exists err w', DefaultFilterEngine_SetFilter P name flag w = (Ok err, w')
                 /\ world_step e w w'.
Proof.
  intros Ha. unfold DefaultFilterEngine_SetFilter.
  destruct (SetFilter name flag (FiltersMap w)) as [m|].
  - do 2 eexists. split; [reflexivity | now apply step_filters].
  - do 2 eexists. split; [reflexivity | constructor].
Qed.

Lemma runFilterCommand_step (P : Platform) (e : DefaultExecutor) (args : list string)
    (w : World) :
  world_step e w (snd (runFilterCommand P args (ClusterName e) (IsAuthChannel e) w)).
Proof.
  unfold runFilterCommand. destruct (IsAuthChannel e) eqn:Ha; [|constructor].
  cbn [Bool.eqb]. destruct (Nat.ltb (length args) 2); [constructor|].
  unfold bind, index, lift, index_result.
  destruct (nth_error args 1) as [action|]; [|constructor].
  destruct (String.eqb action FilterList); [constructor|].
  destruct (String.eqb action FilterEnable).
  { destruct (Nat.ltb (length args) 3); [constructor|].
    destruct (nth_error args 2) as [name|]; [|constructor].
    destruct (DefaultFilterEngine_SetFilter_step P e name true w Ha) as (err & w' & -> & Hs).
    now destruct err. }
  destruct (String.eqb action FilterDisable); [|constructor].
  destruct (Nat.ltb (length args) 3); [constructor|].
  destruct (nth_error args 2) as [name|]; [|constructor].
  destruct (DefaultFilterEngine_SetFilter_step P e name false w Ha) as (err & w' & -> & Hs).
  now destruct err.
Qed.

(** Every call of [Execute] takes one of the steps of [world_step]. *)
Lemma Execute_step (P : Platform) (e : DefaultExecutor) (w : World) :
  world_step e w (snd (Execute P e w)).
Proof.
  destruct (Fields (Message e)) as [|verb rest] eqn:Hf.
  - rewrite (Execute_without_token P e w Hf). constructor.
  - rewrite (Execute_unfold_verb P e w Hf).
    destruct (validKubectlCommands verb).
    { destruct (AllowKubectl e) eqn:Ha; [|constructor]. cbn [negb].
      rewrite runKubectlCommand_unfold.
      destruct (runKubectlCommand_loop _ _ false _ []) as [[text|fa a]|msg];
        try constructor.
      destruct (Bool.eqb a false); [constructor | now apply step_kubectl]. }
    destruct (validNotifierCommand verb); [apply runNotifierCommand_step|].
    destruct (validPingCommand verb).
    { unfold bind.
      destruct (runVersionCommand_step P e (verb :: rest) (ClusterName e) w)
        as (r & w' & -> & Hs).
      destruct r as [res|msg]; [|exact Hs].
      unfold ret. now destruct (Nat.eqb (String.length res) 0). }
    destruct (validVersionCommand verb).
    { now destruct (runVersionCommand_step P e (verb :: rest) (ClusterName e) w)
        as (r & w' & -> & Hs). }
    destruct (validFilterCommand verb); [apply runFilterCommand_step|].
    destruct (IsAuthChannel e); constructor.
Qed.

(** X10. Whatever the message, a call from a channel that is not
    pre-authorized changes neither the notifier flag nor the filter
    registry. *)
Theorem unauthorized_channel_keeps_settings (P : Platform) (e : DefaultExecutor)
    (w : World) :
  IsAuthChannel e = false ->
  Notify (snd (Execute P e w)) = Notify w
  /\ FiltersMap (snd (Execute P e w)) = FiltersMap w.
Proof.
  intros Ha. destruct (Execute_step P e w); try (split; reflexivity); congruence.
Qed.

Lemma unauthorized_channel_keeps_settings_witness :
  Notify (snd (Execute sample_Platform
                       (NewDefaultExecutor "get pods --cluster-name=prod" true "prod"
                                           "random" false)
                       sample_World)) = Notify sample_World
  /\ FiltersMap (snd (Execute sample_Platform
                              (NewDefaultExecutor "get pods --cluster-name=prod" true "prod"
                                                  "random" false)
                              sample_World)) = FiltersMap sample_World.
Proof.
  apply (unauthorized_channel_keeps_settings sample_Platform
           (NewDefaultExecutor "get pods --cluster-name=prod" true "prod" "random" false)
           sample_World). reflexivity.
Defined.

(** X11. Whatever the message, a call invokes the process runner at most
    once, with [kubectl] or with [sh], and with [kubectl] only when
    passthrough is enabled. *)
Theorem runner_invoked_at_most_once (P : Platform) (e : DefaultExecutor) (w : World) :
  Invocations (snd (Execute P e w)) = Invocations w
  \/ exists (binary : string) (args : list string),
       Invocations (snd (Execute P e w)) = Invocations w ++ [(binary, args)]
       /\ (binary = "sh" \/ (binary = kubectlBinary /\ AllowKubectl e = true)).
Proof.
  destruct (Execute_step P e w) as [|fa Ha| | |]; try (left; reflexivity).
  - right. exists kubectlBinary, fa. split; [reflexivity | now right].
  - right. exists "sh", version_args. split; [reflexivity | now left].
Qed.

(** ** Reading the configuration *)

(** X12. An empty configuration file is not handed to the YAML decoder: the
    handler renders the zero configuration. *)
Theorem showconfig_empty_file (P : Platform) (w : World) :
  ReadFile w (config_path P w) = inl "" ->
  showControllerConfig P w = (Ok (rendering P zero_Config), w).
Proof.
  intros H. unfold showControllerConfig, rendering. fold (config_path P w). rewrite H.
  cbn [String.length Nat.eqb negb]. now destruct (yaml_Marshal P _).
Qed.

Lemma showconfig_empty_file_witness :
  showControllerConfig shared_text_Platform
    (mkWorld true [] (fun _ => "") (fun _ => inl "") [])
  = (Ok (rendering shared_text_Platform zero_Config),
     mkWorld true [] (fun _ => "") (fun _ => inl "") []).
Proof.
  apply (showconfig_empty_file shared_text_Platform). reflexivity.
Defined.

(** X13. When the configuration file cannot be read, cannot be decoded, or
    the redacted configuration cannot be encoded, [notifier showconfig]
    answers the fixed failure text, which does not carry the cause, and the
    world is left as it was. *)
Theorem showconfig_failure_is_generic (P : Platform) (e : DefaultExecutor) (w : World)
    (rest : list string) :
  Fields (Message e) = "notifier" :: ShowConfig :: rest ->
  IsAuthChannel e = true ->
  (exists err, ReadFile w (config_path P w) = inr err)
  \/ (exists b err, ReadFile w (config_path P w) = inl b /\ b <> ""
                    /\ yaml_Unmarshal P b zero_Config = inr err)
  \/ (exists c err, stored_config P w c /\ yaml_Marshal P (redacted c) = inr err) ->
  Execute P e w = (Ok "Error in getting configuration!", w).
Proof.
  intros Hf Ha Hfail.
  rewrite (Execute_notifier P e w _ Hf). unfold runNotifierCommand. rewrite Ha.
  cbn [Bool.eqb length Nat.ltb Nat.leb]. unfold bind at 1, index, lift, index_result.
  cbn [nth_error]. change (String.eqb ShowConfig Start) with false.
  change (String.eqb ShowConfig Stop) with false.
  change (String.eqb ShowConfig Status) with false.
  change (String.eqb ShowConfig ShowConfig) with true. cbv iota.
  assert (Hshow : exists err, showControllerConfig P w = (Ok ("", Some err), w)).
  { destruct Hfail as [[err H] | [(b & err & H & Hb & Hdec) | (c & err & Hc & Henc)]].
    - exists err. unfold showControllerConfig. fold (config_path P w). now rewrite H.
    - exists err. unfold showControllerConfig. fold (config_path P w). rewrite H.
      destruct b as [|x b]; [contradiction|]. cbn [String.length Nat.eqb negb].
      now rewrite Hdec.
    - exists err. rewrite (showControllerConfig_stored P w c Hc). unfold rendering.
      now rewrite Henc. }
  destruct Hshow as [err Hshow]. unfold bind. now rewrite Hshow.
Qed.

Lemma showconfig_failure_is_generic_witness :
  Execute sample_Platform (NewDefaultExecutor "notifier showconfig" true "prod" "general" true)
          sample_World
  = (Ok "Error in getting configuration!", sample_World).
Proof.
  apply (showconfig_failure_is_generic sample_Platform
           (NewDefaultExecutor "notifier showconfig" true "prod" "general" true)
           sample_World []); try reflexivity.
  left. exists "no such file". reflexivity.
Defined.

(** ** Trimming quotes *)

Lemma TrimLeftFunc_head (f : ascii -> bool) (s : string) :
  match TrimLeftFunc s f with
  | EmptyString => True
  | String c _ => f c = false
  end.
Proof.
  induction s as [|c s IH]; cbn [TrimLeftFunc]; [exact I|].
  destruct (f c) eqn:E; [exact IH | exact E].
Qed.

Lemma TrimLeftFunc_fixed (f : ascii -> bool) (s : string) :
  match s with EmptyString => True | String c _ => f c = false end ->
  TrimLeftFunc s f = s.
Proof.
  destruct s as [|c s]; [reflexivity|]. cbn [TrimLeftFunc]. now intros ->.
Qed.

Lemma rev_string_app (a b : string) : rev_string (a +++ b) = rev_string b +++ rev_string a.
Proof.
  induction a as [|c a IH]; cbn [String.append rev_string].
  - now rewrite append_nil_r.
  - now rewrite IH, append_assoc.
Qed.

Lemma rev_string_involutive (s : string) : rev_string (rev_string s) = s.
Proof.
  induction s as [|c s IH]; [reflexivity|].
  cbn [rev_string]. now rewrite rev_string_app, IH.
Qed.

(** Trimming on the left of [a +++ b] when something of [a] remains. *)
Lemma TrimLeftFunc_app (f : ascii -> bool) (a b : string) :
  TrimLeftFunc a f <> EmptyString ->
  TrimLeftFunc (a +++ b) f = TrimLeftFunc a f +++ b.
Proof.
  induction a as [|c a IH]; cbn [String.append TrimLeftFunc]; [contradiction|].
  destruct (f c); [exact IH | reflexivity].
Qed.

(** Trimming on the right leaves a first byte that is kept where it is. *)
Lemma TrimRightFunc_cons (f : ascii -> bool) (c : ascii) (s : string) :
  f c = false ->
  TrimRightFunc (String c s) f = String c (TrimRightFunc s f).
Proof.
  intros Hc. unfold TrimRightFunc. cbn [rev_string].
  destruct (TrimLeftFunc (rev_string s) f) as [|x t] eqn:E.
  - assert (H : TrimLeftFunc (rev_string s +++ String c EmptyString) f
                = String c EmptyString).
    { clear -E Hc. induction (rev_string s) as [|y r IH]; cbn [String.append TrimLeftFunc] in *.
      - now rewrite Hc.
      - destruct (f y); [now apply IH | discriminate]. }
    now rewrite H.
  - rewrite TrimLeftFunc_app by (rewrite E; discriminate).
    rewrite E, rev_string_app. reflexivity.
Qed.

(** X14. [trimQuotes] leaves a text that neither starts nor ends with a
    quote character, and trimming it again changes nothing. *)
Theorem trimQuotes_clean (s : string) :
  head_is_quote (trimQuotes s) = false
  /\ head_is_quote (rev_string (trimQuotes s)) = false
  /\ trimQuotes (trimQuotes s) = trimQuotes s.
Proof.
  unfold trimQuotes, TrimFunc.
  pose proof (TrimLeftFunc_head isQuote s) as Hl.
  set (t := TrimLeftFunc s isQuote) in *.
  assert (Hr : head_is_quote (rev_string (TrimRightFunc t isQuote)) = false).
  { unfold TrimRightFunc. rewrite rev_string_involutive.
    pose proof (TrimLeftFunc_head isQuote (rev_string t)) as H.
    now destruct (TrimLeftFunc (rev_string t) isQuote). }
  assert (Hh : match TrimRightFunc t isQuote with
               | EmptyString => True
               | String c _ => isQuote c = false
               end).
  { destruct t as [|c t']; [exact I|]. now rewrite (TrimRightFunc_cons isQuote c t' Hl). }
  split; [|split].
  - now destruct (TrimRightFunc t isQuote).
  - exact Hr.
  - rewrite (TrimLeftFunc_fixed isQuote _ Hh).
    unfold TrimRightFunc at 1. rewrite TrimLeftFunc_fixed.
    + apply rev_string_involutive.
    + unfold head_is_quote in Hr. now destruct (rev_string (TrimRightFunc t isQuote)).
Qed.

(** * Further properties of the image-tag filter *)

(** X15. Whatever the object and the event, the filter only appends to the
    recommendations of the event: the recommendations it finds stay in
    front, in their order, at most one is added per init container and
    container of a pod, and no other field of the event changes. *)
Theorem ImageTagChecker_appends_only (object : Object) (event : Event) :
  exists added : list string,
    ImageTagChecker_Run object event
    = set_Recommendations (Recommendations event ++ added) event
    /\ length added
       <= match object with
          | PodObject pod =>
            length (InitContainers (Spec pod)) + length (Containers (Spec pod))
          | OtherObject _ => 0
          end.
Proof.
  assert (Hlen : forall role cs, length (flat_map (advice role) cs) <= length cs).
  { intros role cs. induction cs as [|c cs IH]; [apply Nat.le_refl|].
    cbn [flat_map length]. rewrite length_app.
    pose proof (advice_at_most_one role c). lia. }
  assert (Hnoop : exists added : list string,
            event = set_Recommendations (Recommendations event ++ added) event
            /\ length added <= 0).
  { exists []. now rewrite app_nil_r, set_Recommendations_same. }
  destruct (String.eqb_spec (Kind event) "Pod") as [Hk|Hk];
    [|rewrite ImageTagChecker_Run_noop by auto;
      destruct Hnoop as (a & ? & ?); exists a; split; [assumption | lia]].
  destruct (String.eqb_spec (Type_ event) CreateEvent) as [Ht|Ht];
    [|rewrite ImageTagChecker_Run_noop by auto;
      destruct Hnoop as (a & ? & ?); exists a; split; [assumption | lia]].
  destruct object as [pod|kind].
  - rewrite (ImageTagChecker_Run_appends pod event Hk Ht).
    eexists. split; [reflexivity|]. rewrite length_app.
    pose proof (Hlen "initContainer" (InitContainers (Spec pod))).
    pose proof (Hlen "Container" (Containers (Spec pod))). lia.
  - rewrite ImageTagChecker_Run_noop.
    + exact Hnoop.
    + right. right. intros pod. discriminate.
Qed.

(** X16. The filter does not look at what the event already holds: run a
    second time on the same pod, it appends the same recommendations once
    more. *)
Theorem ImageTagChecker_runs_twice (pod : Pod) (event : Event) :
  Kind event = "Pod" -> Type_ event = CreateEvent ->
  let added := flat_map (advice "initContainer") (InitContainers (Spec pod))
               ++ flat_map (advice "Container") (Containers (Spec pod)) in
  ImageTagChecker_Run (PodObject pod) (ImageTagChecker_Run (PodObject pod) event)
  = set_Recommendations (Recommendations event ++ added ++ added) event.
Proof.
  intros Hk Ht added.
  rewrite (ImageTagChecker_Run_appends pod event Hk Ht).
  rewrite ImageTagChecker_Run_appends by (destruct event; assumption).
  destruct event. unfold set_Recommendations. cbn. subst added.
  now rewrite <- !app_assoc.
Qed.

Lemma ImageTagChecker_runs_twice_witness :
  Recommendations
    (ImageTagChecker_Run (PodObject (mkPod (mkPodSpec [] [mkContainer "web" "nginx"])))
       (ImageTagChecker_Run (PodObject (mkPod (mkPodSpec [] [mkContainer "web" "nginx"])))
          (mkEvent "" "Pod" "web" "default" "" "" "prod" "" CreateEvent [] [] [] 0 Info)))
  = [":latest tag used in image 'nginx' of Container 'web' should be avoided." +++ LF;
     ":latest tag used in image 'nginx' of Container 'web' should be avoided." +++ LF].
Proof.
  rewrite (ImageTagChecker_runs_twice (mkPod (mkPodSpec [] [mkContainer "web" "nginx"]))
             (mkEvent "" "Pod" "web" "default" "" "" "prod" "" CreateEvent [] [] [] 0 Info));
    reflexivity.
Defined.

Lemma length_append (a b : string) :
  String.length (a +++ b) = String.length a + String.length b.
Proof. induction a as [|c a IH]; cbn; [reflexivity | now rewrite IH]. Qed.

Lemma prefix_colon (c : ascii) (s : string) :
  Ascii.eqb c ":" = false -> String.prefix ":" (String c s) = false.
Proof.
  intros H. cbn [String.prefix]. destruct (ascii_dec ":" c) as [E|_]; [|reflexivity].
  subst c. discriminate.
Qed.

Lemma prefix_colon_here (s : string) : String.prefix ":" (String ":" s) = true.
Proof.
  cbn [String.prefix]. destruct (ascii_dec ":" ":") as [_|N]; [|now destruct N].
  now destruct s.
Qed.

(** A piece without a colon is not cut. *)
Lemma split_scan_free (x : string) :
  forall (budget : nat) (cur : string),
  free_of ":" x = true ->
  genSplit_scan ":" false budget 0 cur x = [cur +++ x].
Proof.
  induction x as [|c x IH]; intros budget cur H; cbn [genSplit_scan].
  - now rewrite append_nil_r.
  - destruct budget as [|b]; [reflexivity|].
    cbn [free_of] in H. apply andb_true_iff in H as [Hc Hx]. apply negb_true_iff in Hc.
    rewrite (prefix_colon c x Hc), (IH _ _ Hx), append_assoc. reflexivity.
Qed.

(** The first colon ends the first piece. *)
Lemma split_scan_colon (x rest : string) :
  forall (b : nat) (cur : string),
  free_of ":" x = true ->
  genSplit_scan ":" false (S b) 0 cur (x +++ String ":" rest)
  = (cur +++ x) :: genSplit_scan ":" false b 0 EmptyString rest.
Proof.
  induction x as [|c x IH]; intros b cur H.
  - cbn [String.append genSplit_scan]. rewrite prefix_colon_here.
    cbn [String.length Nat.sub]. now rewrite append_nil_r.
  - cbn [free_of] in H. apply andb_true_iff in H as [Hc Hx]. apply negb_true_iff in Hc.
    cbn [String.append genSplit_scan].
    rewrite (prefix_colon c _ Hc), (IH _ _ Hx), append_assoc. reflexivity.
Qed.

(** The first two pieces of an image reference with a colon. *)
Lemma Split_image (repo tag tail : string) :
  free_of ":" repo = true ->
  free_of ":" tag = true ->
  tail = EmptyString \/ (exists t, tail = ":" +++ t) ->
  exists more, Split (repo +++ ":" +++ tag +++ tail) ":" = repo :: tag :: more.
Proof.
  intros Hrepo Htag Htail. unfold Split, genSplit.
  change (Z.eqb (-1) 0) with false. change (Z.ltb (-1) 0) with true. cbv iota.
  rewrite length_append. cbn [String.append String.length].
  rewrite Nat.add_succ_r, (split_scan_colon _ _ _ _ Hrepo). cbn [String.append].
  destruct Htail as [-> | [t ->]].
  - exists []. now rewrite append_nil_r, (split_scan_free _ _ _ Htag).
  - rewrite length_append. cbn [String.append String.length].
    rewrite !Nat.add_succ_r, (split_scan_colon _ _ _ _ Htag). cbn [String.append].
    eexists. reflexivity.
Qed.

(** X17. The filter reads the tag between the first and the second colon of
    the image reference: a reference without a colon gets the
    recommendation, and a reference with a colon gets it exactly when the
    text from the first colon to the next colon, or to the end, is
    [latest]. *)
Theorem advice_by_first_colon (role : string) (c : Container) :
  let text := ":latest tag used in image '" +++ Image c +++ "' of " +++ role +++ " '"
              +++ Container_Name c +++ "' should be avoided." +++ LF in
  (free_of ":" (Image c) = true -> advice role c = [text])
  /\ (forall repo tag tail : string,
        Image c = repo +++ ":" +++ tag +++ tail ->
        free_of ":" repo = true ->
        free_of ":" tag = true ->
        tail = EmptyString \/ (exists t, tail = ":" +++ t) ->
        advice role c = if String.eqb tag "latest" then [text] else []).
Proof.
  intros text. split.
  - intros H. unfold advice, check_image, Split, genSplit.
    change (Z.eqb (-1) 0) with false. change (Z.ltb (-1) 0) with true. cbv iota.
    now rewrite (split_scan_free _ _ _ H).
  - intros repo tag tail Himg Hrepo Htag Htail.
    destruct (Split_image repo tag tail Hrepo Htag Htail) as [more Hsplit].
    unfold advice, check_image. rewrite Himg, Hsplit. cbn [length Nat.eqb nth orb].
    rewrite <- Himg. now destruct (String.eqb tag "latest").
Qed.

Lemma advice_by_first_colon_witness :
  advice "Container" (mkContainer "web" "nginx:latest:extra")
  = [":latest tag used in image 'nginx:latest:extra' of Container 'web' should be avoided."
     +++ LF]
  /\ advice "Container" (mkContainer "web" "registry:5000/nginx:latest") = [].
Proof.
  split.
  - apply (proj2 (advice_by_first_colon "Container" (mkContainer "web" "nginx:latest:extra"))
                 "nginx" "latest" ":extra"); try reflexivity. right. now exists "extra".
  - apply (proj2 (advice_by_first_colon "Container"
                    (mkContainer "web" "registry:5000/nginx:latest"))
                 "registry" "5000/nginx" ":latest"); try reflexivity. right. now exists "latest".
Defined.

(** * Properties of the Slack notifier *)

Lemma append_nonempty (a b : string) : a <> EmptyString -> a +++ b <> EmptyString.
Proof. destruct a; [contradiction | discriminate]. Qed.

Lemma join_lines_nonempty (l : list string) :
  l <> [] -> join_lines ("%s" +++ LF) l <> EmptyString.
Proof.
  destruct l as [|m l]; [contradiction|]. intros _.
  unfold join_lines. cbn [fold_left].
  assert (H : EmptyString +++ Sprintf ("%s" +++ LF) [m] <> EmptyString)
    by (destruct m; discriminate).
  revert H. generalize (EmptyString +++ Sprintf ("%s" +++ LF) [m]).
  induction l as [|x l IH]; intros acc H; [exact H|].
  cbn [fold_left]. apply IH. now apply append_nonempty.
Qed.

Lemma length_positive {A : Type} (l : list A) : Nat.ltb 0 (length l) = true -> l <> [].
Proof. destruct l; [discriminate | discriminate]. Qed.

(** X18. The long notification lists the kind and the name first and the
    cluster last; in between come only the fields that have something to
    show, at most six: no field is added for an empty namespace, reason or
    action, or for an empty list of messages, recommendations or
    warnings. *)
Theorem long_notification_fields (event : Event) :
  exists optional : list AttachmentField,
    Attachment_Fields (slackLongNotification event)
    = [mkAttachmentField "Kind" (Kind event) true;
       mkAttachmentField "Name" (Name event) true]
      ++ optional ++ [mkAttachmentField "Cluster" (Cluster event) false]
    /\ Forall (fun f => Field_Value f <> EmptyString) optional
    /\ length optional <= 6.
Proof.
  exists
    ((if negb (String.eqb (Namespace event) "")
      then [mkAttachmentField "Namespace" (Namespace event) true] else [])
     ++ (if negb (String.eqb (Reason event) "")
         then [mkAttachmentField "Reason" (Reason event) true] else [])
     ++ (if Nat.ltb 0 (length (Messages event))
         then [mkAttachmentField "Message" (join_lines ("%s" +++ LF) (Messages event)) false]
         else [])
     ++ (if negb (String.eqb (Action event) "")
         then [mkAttachmentField "Action" (Action event) false] else [])
     ++ (if Nat.ltb 0 (length (Recommendations event))
         then [mkAttachmentField "Recommendations"
                 (join_lines ("%s" +++ LF) (Recommendations event)) false]
         else [])
     ++ (if Nat.ltb 0 (length (Warnings event))
         then [mkAttachmentField "Warnings"
                 (join_lines ("%s" +++ LF) (Warnings event)) false]
         else [])).
  split; [|split].
  - unfold slackLongNotification. cbn [Attachment_Fields].
    destruct (negb (String.eqb (Namespace event) ""));
      destruct (negb (String.eqb (Reason event) ""));
      destruct (Nat.ltb 0 (length (Messages event)));
      destruct (negb (String.eqb (Action event) ""));
      destruct (Nat.ltb 0 (length (Recommendations event)));
      destruct (Nat.ltb 0 (length (Warnings event))); reflexivity.
  - repeat (apply Forall_app; split).
    + destruct (String.eqb_spec (Namespace event) ""); cbn [negb]; repeat constructor.
      assumption.
    + destruct (String.eqb_spec (Reason event) ""); cbn [negb]; repeat constructor.
      assumption.
    + destruct (Nat.ltb 0 (length (Messages event))) eqn:E; repeat constructor.
      now apply join_lines_nonempty, length_positive.
    + destruct (String.eqb_spec (Action event) ""); cbn [negb]; repeat constructor.
      assumption.
    + destruct (Nat.ltb 0 (length (Recommendations event))) eqn:E; repeat constructor.
      now apply join_lines_nonempty, length_positive.
    + destruct (Nat.ltb 0 (length (Warnings event))) eqn:E; repeat constructor.
      now apply join_lines_nonempty, length_positive.
  - rewrite !length_app.
    destruct (negb (String.eqb (Namespace event) ""));
      destruct (negb (String.eqb (Reason event) ""));
      destruct (Nat.ltb 0 (length (Messages event)));
      destruct (negb (String.eqb (Action event) ""));
      destruct (Nat.ltb 0 (length (Recommendations event)));
      destruct (Nat.ltb 0 (length (Warnings event))); cbn [length]; lia.
Qed.

(** X19. For the kinds that have no namespace (Namespace, Node,
    PersistentVolume, ClusterRole, ClusterRoleBinding) the short message
    does not depend on the namespace of the event. *)
Theorem short_message_ignores_namespace (event : Event) (ns : string) :
  cluster_scoped (Kind event) = true ->
  formatShortMessage (set_Namespace ns event) = formatShortMessage event.
Proof.
  intros H. unfold formatShortMessage.
  destruct event. cbn [set_Namespace Title Kind Name Namespace Reason Action Cluster Channel
                       Type_ Messages Recommendations Warnings TimeStamp Level_] in *.
  now rewrite H.
Qed.

Lemma short_message_ignores_namespace_witness :
  formatShortMessage
    (mkEvent "" "Node" "worker-1" "kube-system" "" "" "prod" "" DeleteEvent [] [] [] 0 Info)
  = formatShortMessage
      (mkEvent "" "Node" "worker-1" "" "" "" "prod" "" DeleteEvent [] [] [] 0 Info).
Proof.
  apply (short_message_ignores_namespace
           (mkEvent "" "Node" "worker-1" "" "" "" "prod" "" DeleteEvent [] [] [] 0 Info)
           "kube-system"). reflexivity.
Defined.

(** The decimal digits of a positive number do not start with a zero. *)
Lemma to_uint_head (p : positive) :
  match Pos.to_uint p with
  | Decimal.Nil | Decimal.D0 _ => False
  | _ => True
  end.
Proof.
  pose proof (DecimalPos.Unsigned.to_uint_nonzero p) as Hz.
  pose proof (DecimalPos.Unsigned.to_uint_nonnil p) as Hn.
  assert (Hnorm : Decimal.unorm (Pos.to_uint p) = Pos.to_uint p).
  { rewrite <- (DecimalPos.Unsigned.to_of (Pos.to_uint p)).
    now rewrite DecimalPos.Unsigned.of_to. }
  destruct (Pos.to_uint p) as [|u|u|u|u|u|u|u|u|u|u]; try exact I; [contradiction|].
  rewrite DecimalFacts.unorm_D0 in Hnorm.
  destruct u as [|u|u|u|u|u|u|u|u|u|u]; [now apply Hz| | | | | | | | | |];
    match type of Hnorm with
    | Decimal.unorm ?d = _ =>
      assert (Hd : d <> Decimal.Nil) by discriminate;
      pose proof (DecimalFacts.nb_digits_unorm d Hd) as Hlen;
      rewrite Hnorm in Hlen; cbn [Decimal.nb_digits] in Hlen; lia
    end.
Qed.

(** The test [ts > "0"] on the decimal text of the time is the test
    [0 < time]. *)
Lemma positive_time_text (i : Z) : string_gt (FormatInt i) "0" = Z.ltb 0 i.
Proof.
  unfold string_gt, FormatInt. destruct i as [|p|p]; [reflexivity| |reflexivity].
  cbn [Z.to_int DecimalString.NilZero.string_of_int Z.ltb Z.compare].
  pose proof (to_uint_head p) as H.
  destruct (Pos.to_uint p) as [|u|u|u|u|u|u|u|u|u|u]; try contradiction; reflexivity.
Qed.

(** X20. The attachment carries the time of the event, in decimal, exactly
    when that time is after the epoch; its colour is the one of the level
    and its footer is [BotKube], in the long and in the short layout. *)
Theorem attachment_time_and_colour (LongNotify : string) (event : Event)
    (notifyType : string) :
  let attachment := formatSlackMessage LongNotify event notifyType in
  Attachment_Ts attachment
  = (if Z.ltb 0 (TimeStamp event) then FormatInt (TimeStamp event) else "")
  /\ Attachment_Color attachment = attachmentColor (Level_ event)
  /\ Attachment_Footer attachment = "BotKube".
Proof.
  unfold formatSlackMessage. rewrite positive_time_text.
  destruct (String.eqb notifyType LongNotify); destruct (Z.ltb 0 (TimeStamp event));
    repeat split; reflexivity.
Qed.

(** * No panic on well-formed cluster commands *)

(** X21. A cluster command in which every token that starts with
    [--cluster-name] is the flag itself or an assignment
    [--cluster-name=value] is answered: the executor does not panic,
    whatever the values, the channel and the passthrough setting. *)
Theorem well_formed_cluster_command_answers (P : Platform) (e : DefaultExecutor)
    (w : World) (verb : string) (toks : list string) :
  Fields (Message e) = verb :: toks ->
  validKubectlCommands verb = true ->
  Forall (fun t => is_cluster_token t = true ->
                   t = ClusterFlag \/ exists value, t = ClusterFlag +++ "=" +++ value)
         toks ->
  exists (text : string) (w' : World), Execute P e w = (Ok text, w').
Proof.
  intros Hf Hv Htoks.
  assert (Hloop : exists exit,
            runKubectlCommand_loop (ClusterName e) (["-n"; "default"; verb] ++ toks)
                                   false (IsAuthChannel e) [] = Ok exit).
  { apply loop_result_cases. apply Forall_app. split.
    - pose proof (cluster_free_head verb Hv) as Hhead.
      eapply Forall_impl; [|exact Hhead].
      intros t Ht Hc. cbn beta in Ht. congruence.
    - eapply Forall_impl; [|exact Htoks].
      intros t Ht Hc. destruct (Ht Hc) as [-> | [value ->]]; [now left|].
      right. exists value. now destruct value. }
  destruct Hloop as [exit Hexit].
  destruct (AllowKubectl e) eqn:Ha.
  - rewrite (Execute_kubectl P e w _ _ Hf Hv Ha), Hexit.
    destruct exit as [text|fa a]; [now eauto|].
    destruct (Bool.eqb a false); eauto.
  - rewrite (Execute_disabled P e w verb toks Hf Hv Ha). eauto.
Qed.

Lemma well_formed_cluster_command_answers_witness :
  exists (text : string) (w' : World),
    Execute sample_Platform
            (NewDefaultExecutor "get pods --cluster-name= --cluster-name" true "prod"
                                "random" false)
            sample_World = (Ok text, w').
Proof.
  apply (well_formed_cluster_command_answers sample_Platform
           (NewDefaultExecutor "get pods --cluster-name= --cluster-name" true "prod"
                               "random" false)
           sample_World "get" ["pods"; "--cluster-name="; "--cluster-name"]);
    try reflexivity.
  apply Forall_cons; [intros H; discriminate H|].
  apply Forall_cons; [intros _; right; now exists ""|].
  apply Forall_cons; [intros _; now left | constructor].
Defined.
